(** * IMA signature verification and key import (framework/liblegato/linux/ima.c)

    A shallow embedding of [ima.c].  The C functions are translated one by
    one into a small monad that threads the state of the machine outside the
    process (file system, kernel, external tools) and records what the
    process does to that outside world: the commands it hands to system(3),
    the messages it logs and the traversal handles it opens and closes. *)

From Stdlib Require Import ZArith List String Ascii Bool Lia DecimalString.
From Stdlib Require Import Permutation.
Import ListNotations.

Local Open Scope string_scope.
Local Open Scope Z_scope.

(** ** Results, log records and events *)

(** The two values of [le_result_t] that [ima.c] returns. *)
Inductive le_result_t : Type := LE_OK | LE_FAULT.

Definition le_result_eqb (a b : le_result_t) : bool :=
  match a, b with
  | LE_OK, LE_OK | LE_FAULT, LE_FAULT => true
  | _, _ => false
  end.

Inductive le_log_level_t : Type := LE_LOG_DEBUG | LE_LOG_ERR | LE_LOG_CRIT.

(** An argument of a printf-like call. *)
Inductive fmt_arg : Type :=
| AStr (s : string)
| AInt (z : Z).

(** What the process does to the world outside, in the order it does it. *)
Inductive Event : Type :=
| EvLog (lvl : le_log_level_t) (fmt : string) (args : list fmt_arg)
| EvSystem (cmd : string) (status : Z)
| EvFtsOpen (path : string) (opened : bool)
| EvFtsClose.

Definition is_system (e : Event) : bool :=
  match e with EvSystem _ _ => true | _ => false end.

(** The commands handed to system(3), oldest first. *)
Fixpoint commands (t : list Event) : list string :=
  match t with
  | [] => []
  | EvSystem cmd _ :: t' => cmd :: commands t'
  | _ :: t' => commands t'
  end.

(** The log records, oldest first. *)
Fixpoint logs (t : list Event) : list (le_log_level_t * string * list fmt_arg) :=
  match t with
  | [] => []
  | EvLog lvl fmt args :: t' => (lvl, fmt, args) :: logs t'
  | _ :: t' => logs t'
  end.

(** ** The wait status macros of <sys/wait.h> *)

Definition WTERMSIG (status : Z) : Z := Z.land status 127.
Definition WIFEXITED (status : Z) : bool := WTERMSIG status =? 0.
Definition WEXITSTATUS (status : Z) : Z := Z.shiftr (Z.land status 65280) 8.

(** How a command run by system(3) can end, and the [int] that system(3)
    returns for it on Linux: the exit code in bits 8 to 15, the signal in
    bits 0 to 6 with the core flag in bit 7, and -1 when no child could be
    created. *)
Inductive termination : Type :=
| Exited (code : Z)
| Signaled (sig : Z) (core : bool)
| SpawnFailed.

Definition termination_wf (t : termination) : Prop :=
  match t with
  | Exited code => 0 <= code < 256
  | Signaled sig _ => 1 <= sig < 127
  | SpawnFailed => True
  end.

Definition wait_status (t : termination) : Z :=
  match t with
  | Exited code => Z.shiftl code 8
  | Signaled sig core => Z.lor sig (if core then 128 else 0)
  | SpawnFailed => -1
  end.

(** The test both [VerifyFile] and [ImportPublicCert] apply to the value of
    system(3). *)
Definition exited_zero (status : Z) : bool :=
  WIFEXITED status && (0 =? WEXITSTATUS status).

(** ** Strings: snprintf *)

Definition dq : string := String (ascii_of_nat 34) EmptyString.

Fixpoint take (n : nat) (s : string) : string :=
  match n, s with
  | O, _ => EmptyString
  | S _, EmptyString => EmptyString
  | S n', String c s' => String c (take n' s')
  end.

(** The expansion of a format: %s and %d take the next argument, %% is a
    percent sign. *)
Definition decimal (z : Z) : string :=
  DecimalString.NilZero.string_of_int (Z.to_int z).

Fixpoint format (fmt : string) (args : list fmt_arg) : string :=
  match fmt with
  | EmptyString => EmptyString
  | String c rest =>
      match rest with
      | EmptyString => String c EmptyString
      | String d rest' =>
          if Ascii.eqb c "%" then
            if Ascii.eqb d "s" then
              match args with
              | AStr a :: args' => a ++ format rest' args'
              | _ :: args' => format rest' args'
              | [] => format rest' []
              end
            else if Ascii.eqb d "d" then
              match args with
              | AInt z :: args' => decimal z ++ format rest' args'
              | _ :: args' => format rest' args'
              | [] => format rest' []
              end
            else if Ascii.eqb d "%" then String "%" (format rest' args)
            else String c (format rest args)
          else String c (format rest args)
      end
  end.

(** [snprintf(buf, size, fmt, ...)]: at most [size - 1] bytes of the
    expansion are stored, followed by the terminating NUL. *)
Definition snprintf (size : nat) (fmt : string) (args : list fmt_arg) : string :=
  take (size - 1) (format fmt args).

(** [strcmp]: zero exactly on equal strings. *)
Definition strcmp (a b : string) : Z :=
  match String.compare a b with
  | Eq => 0
  | Lt => -1
  | Gt => 1
  end.

(** ** Directory traversal: <fts.h> *)

Inductive fts_info_t : Type :=
| FTS_D | FTS_DC | FTS_DEFAULT | FTS_DNR | FTS_DOT | FTS_DP | FTS_ERR
| FTS_F | FTS_INIT | FTS_NS | FTS_NSOK | FTS_SL | FTS_SLNONE | FTS_W.

Definition fts_info_code (i : fts_info_t) : Z :=
  match i with
  | FTS_D => 1 | FTS_DC => 2 | FTS_DEFAULT => 3 | FTS_DNR => 4
  | FTS_DOT => 5 | FTS_DP => 6 | FTS_ERR => 7 | FTS_F => 8
  | FTS_INIT => 9 | FTS_NS => 10 | FTS_NSOK => 11 | FTS_SL => 12
  | FTS_SLNONE => 13 | FTS_W => 14
  end.

Record FTSENT : Type := mkFTSENT {
  fts_info : fts_info_t;
  fts_name : string;
  fts_accpath : string;
  fts_path : string
}.

(** ** Constants of ima.c *)

Definition MAX_CMD_BYTES : nat := 4096.
Definition EVMCTL_PATH : string := "/usr/bin/evmctl".

(** ** The effect monad

    A computation starts in a state of the outside world and yields its
    value, the state it leaves the world in, and the events it produced. *)

Definition M (W A : Type) : Type := W -> A * W * list Event.

Definition ret {W A : Type} (a : A) : M W A := fun w => (a, w, []).

Definition bind {W A B : Type} (m : M W A) (f : A -> M W B) : M W B :=
  fun w =>
    let '(a, w1, t1) := m w in
    let '(b, w2, t2) := f a w1 in
    (b, w2, (t1 ++ t2)%list).

Definition emit {W : Type} (e : Event) : M W unit := fun w => (tt, w, [e]).

Declare Scope ima_scope.
Delimit Scope ima_scope with ima.
Notation "x <- m ;; k" := (bind m (fun x => k))
  (at level 100, m at next level, right associativity) : ima_scope.
Notation "m ;; k" := (bind m (fun _ => k))
  (at level 100, right associativity) : ima_scope.

Definition result {W A : Type} (r : A * W * list Event) : A := fst (fst r).
Definition world {W A : Type} (r : A * W * list Event) : W := snd (fst r).
Definition events {W A : Type} (r : A * W * list Event) : list Event := snd r.

Definition LE_DEBUG {W : Type} (fmt : string) (args : list fmt_arg) : M W unit :=
  emit (EvLog LE_LOG_DEBUG fmt args).
Definition LE_ERROR {W : Type} (fmt : string) (args : list fmt_arg) : M W unit :=
  emit (EvLog LE_LOG_ERR fmt args).
Definition LE_CRIT {W : Type} (fmt : string) (args : list fmt_arg) : M W unit :=
  emit (EvLog LE_LOG_CRIT fmt args).

(** ** The functions of ima.c *)

Section Ima.

Local Open Scope ima_scope.

(** The state of the world outside the process. *)
Variable W : Type.

(** system(3): the wait status of the command, and the world it leaves. *)
Variable sys : string -> W -> Z * W.

(** fts_open(3) with FTS_PHYSICAL followed by fts_read(3) until it
    returns NULL: [None] when fts_open returns NULL, otherwise the entries
    that the successive calls of fts_read return. *)
Variable fts : string -> W -> option (list FTSENT).

(** The name of the public certificate, from ima.h. *)
Variable PUB_CERT_NAME : string.

Definition system (cmd : string) : M W Z :=
  fun w => let '(status, w') := sys cmd w in (status, w', [EvSystem cmd status]).

Definition fts_open (path : string) : M W (option (list FTSENT)) :=
  fun w =>
    let r := fts path w in
    (r, w, [EvFtsOpen path (match r with Some _ => true | None => false end)]).

Definition fts_close : M W unit := emit EvFtsClose.

Definition VerifyFile (filePath certPath : string) : M W le_result_t :=
  let cmd := snprintf MAX_CMD_BYTES "%s ima_verify %s -k %s "
               [AStr EVMCTL_PATH; AStr filePath; AStr certPath] in
  LE_DEBUG "Verify file command: %s" [AStr cmd] ;;
  exitCode <- system cmd ;;
  if WIFEXITED exitCode && (0 =? WEXITSTATUS exitCode) then
    LE_DEBUG "Verified file: '%s' successfully" [AStr filePath] ;;
    ret LE_OK
  else
    LE_ERROR "Failed to verify file '%s' with certificate '%s', exitCode: %d"
      [AStr filePath; AStr certPath; AInt (WEXITSTATUS exitCode)] ;;
    ret LE_FAULT.

(** The while loop of [VerifyDir] over the entries fts_read returns; the
    empty list is fts_read returning NULL. *)
Fixpoint VerifyDir_loop (certPath : string) (ents : list FTSENT) : M W le_result_t :=
  match ents with
  | [] =>
      fts_close ;;
      ret LE_OK
  | entPtr :: rest =>
      LE_DEBUG "Filename: %s, filePath: %s, rootPath: %s, fts_info: %d"
        [AStr (fts_name entPtr); AStr (fts_accpath entPtr);
         AStr (fts_path entPtr); AInt (fts_info_code (fts_info entPtr))] ;;
      match fts_info entPtr with
      | FTS_SL | FTS_SLNONE => VerifyDir_loop certPath rest
      | FTS_F =>
          if negb (0 =? strcmp (fts_name entPtr) PUB_CERT_NAME) then
            r <- VerifyFile (fts_accpath entPtr) certPath ;;
            if negb (le_result_eqb LE_OK r) then
              LE_CRIT "Failed to verify file '%s' with public certificate '%s'"
                [AStr (fts_accpath entPtr); AStr certPath] ;;
              fts_close ;;
              ret LE_FAULT
            else VerifyDir_loop certPath rest
          else VerifyDir_loop certPath rest
      | _ => VerifyDir_loop certPath rest
      end
  end.

Definition VerifyDir (dirPath certPath : string) : M W le_result_t :=
  ftsPtr <- fts_open dirPath ;;
  match ftsPtr with
  | None =>
      LE_CRIT "Could not access dir '%s'.  %m." [AStr dirPath] ;;
      ret LE_FAULT
  | Some ents => VerifyDir_loop certPath ents
  end.

(** The format of the import command, as the C compiler joins and
    unescapes the adjacent literals. *)
Definition import_format : string :=
  "SECFS=/sys/kernel/security && "
  ++ "grep -q  $SECFS /proc/mounts || mount -n -t securityfs securityfs $SECFS && "
  ++ "ima_id=" ++ dq ++ "`awk '/\.ima/ { printf " ++ dq ++ "%%d" ++ dq ++ ", "
  ++ dq ++ "0x" ++ dq ++ "$1; }' /proc/keys`" ++ dq ++ " && "
  ++ "%s import %s $ima_id".

Definition ImportPublicCert (certPath : string) : M W le_result_t :=
  let cmd := snprintf MAX_CMD_BYTES import_format
               [AStr EVMCTL_PATH; AStr certPath] in
  LE_DEBUG "cmd: %s" [AStr cmd] ;;
  exitCode <- system cmd ;;
  if WIFEXITED exitCode && (0 =? WEXITSTATUS exitCode) then
    LE_DEBUG "Installed certificate: '%s' successfully" [AStr certPath] ;;
    ret LE_OK
  else
    LE_ERROR "Failed to import certificate '%s', exitCode: %d"
      [AStr certPath; AInt (WEXITSTATUS exitCode)] ;;
    ret LE_FAULT.

Definition ima_VerifyFile (filePath certPath : string) : M W le_result_t :=
  VerifyFile filePath certPath.

Definition ima_VerifyDir (dirPath certPath : string) : M W le_result_t :=
  VerifyDir dirPath certPath.

Definition enabled_cmd : string :=
  "(zcat /proc/config.gz | grep CONFIG_IMA=y) &&"
  ++ " (cat /proc/cmdline | grep " ++ dq ++ "ima_appraise=enforce" ++ dq ++ ")".

Definition ima_IsEnabled : M W bool :=
  exitCode <- system enabled_cmd ;;
  ret (WIFEXITED exitCode && (0 =? WEXITSTATUS exitCode)).

Definition ima_ImportPublicCert (certPath : string) : M W le_result_t :=
  ImportPublicCert certPath.

End Ima.

Arguments system {W} sys cmd.
Arguments fts_open {W} fts path.
Arguments fts_close {W}.
Arguments VerifyFile {W} sys filePath certPath.
Arguments VerifyDir_loop {W} sys PUB_CERT_NAME certPath ents.
Arguments VerifyDir {W} sys fts PUB_CERT_NAME dirPath certPath.
Arguments ImportPublicCert {W} sys certPath.
Arguments ima_VerifyFile {W} sys filePath certPath.
Arguments ima_VerifyDir {W} sys fts PUB_CERT_NAME dirPath certPath.
Arguments ima_IsEnabled {W} sys.
Arguments ima_ImportPublicCert {W} sys certPath.

(** The command line [VerifyFile] builds for a file and a certificate. *)
Definition verify_cmd (filePath certPath : string) : string :=
  snprintf MAX_CMD_BYTES "%s ima_verify %s -k %s "
    [AStr EVMCTL_PATH; AStr filePath; AStr certPath].

(** The command line [ImportPublicCert] builds for a certificate. *)
Definition import_cmd (certPath : string) : string :=
  snprintf MAX_CMD_BYTES import_format [AStr EVMCTL_PATH; AStr certPath].

(** The entries of a traversal that [VerifyDir] hands to [VerifyFile]:
    regular files not named as the public certificate. *)
Definition eligible (PUB_CERT_NAME : string) (e : FTSENT) : bool :=
  match fts_info e with
  | FTS_F => negb (0 =? strcmp (fts_name e) PUB_CERT_NAME)
  | _ => false
  end.


(** The events of one call of [VerifyFile] whose command ends with wait
    status [status]. *)
Definition verify_events (filePath certPath : string) (status : Z) : list Event :=
  [ EvLog LE_LOG_DEBUG "Verify file command: %s" [AStr (verify_cmd filePath certPath)];
    EvSystem (verify_cmd filePath certPath) status;
    if exited_zero status
    then EvLog LE_LOG_DEBUG "Verified file: '%s' successfully" [AStr filePath]
    else EvLog LE_LOG_ERR
           "Failed to verify file '%s' with certificate '%s', exitCode: %d"
           [AStr filePath; AStr certPath; AInt (WEXITSTATUS status)] ].

(** The record [VerifyDir] logs for each entry fts_read returns. *)
Definition visit_event (e : FTSENT) : Event :=
  EvLog LE_LOG_DEBUG "Filename: %s, filePath: %s, rootPath: %s, fts_info: %d"
    [AStr (fts_name e); AStr (fts_accpath e); AStr (fts_path e);
     AInt (fts_info_code (fts_info e))].

(** What [VerifyDir] does after [VerifyFile] failed on [e]. *)
Definition abort_events (e : FTSENT) (certPath : string) : list Event :=
  [ EvLog LE_LOG_CRIT "Failed to verify file '%s' with public certificate '%s'"
      [AStr (fts_accpath e); AStr certPath];
    EvFtsClose ].

(** The verification tool behaves the same whatever the state of the world
    when it is run with certificate [certPath]. *)
Definition verifier_fixed {W : Type} (sys : string -> W -> Z * W)
    (certPath : string) : Prop :=
  forall filePath w1 w2,
    fst (sys (verify_cmd filePath certPath) w1)
    = fst (sys (verify_cmd filePath certPath) w2).

(** What is left of a [VerifyDir] call once a command has failed: the error
    record of [VerifyFile], the record of [VerifyDir], and the release of
    the traversal handle. *)
Definition is_abort_tail (t : list Event) : bool :=
  match t with
  | [EvLog LE_LOG_ERR _ _; EvLog LE_LOG_CRIT _ _; EvFtsClose] => true
  | _ => false
  end.

(** The first command that did not exit with status zero is followed by
    the abort and nothing else. *)
Fixpoint stops_at_first_failure (t : list Event) : bool :=
  match t with
  | [] => true
  | EvSystem _ status :: t' =>
      if exited_zero status then stops_at_first_failure t'
      else is_abort_tail t'
  | _ :: t' => stops_at_first_failure t'
  end.

(** Every command of the trace exited with status zero. *)
Definition all_exited_zero (t : list Event) : bool :=
  forallb (fun e => match e with
                    | EvSystem _ status => exited_zero status
                    | _ => true
                    end) t.

(** The events of one call of [ImportPublicCert] whose command ends with
    wait status [status]. *)
Definition import_events (certPath : string) (status : Z) : list Event :=
  [ EvLog LE_LOG_DEBUG "cmd: %s" [AStr (import_cmd certPath)];
    EvSystem (import_cmd certPath) status;
    if exited_zero status
    then EvLog LE_LOG_DEBUG "Installed certificate: '%s' successfully" [AStr certPath]
    else EvLog LE_LOG_ERR "Failed to import certificate '%s', exitCode: %d"
           [AStr certPath; AInt (WEXITSTATUS status)] ].

(** ** The shell under system(3)

    system(3) hands its argument to [sh -c].  The two fixed command lines of
    ima.c are AND-OR lists: simple commands, pipelines and assignments
    joined by [&&] and [||], which have equal precedence and associate to
    the left.  The operands are kept as text; what running one does is a
    parameter. *)

Module Sh.

Inductive andor : Type :=
| Run (text : string)
| AndIf (l r : andor)
| OrIf (l r : andor).

Fixpoint render (a : andor) : string :=
  match a with
  | Run text => text
  | AndIf l r => render l ++ " && " ++ render r
  | OrIf l r => render l ++ " || " ++ render r
  end.

Section Exec.

Variable W : Type.

(** Running one operand: its exit status and the world it leaves. *)
Variable run : string -> W -> Z * W.

(** The exit status of the list, the world it leaves and the operands
    that were run, in order. *)
Fixpoint exec (a : andor) (w : W) : Z * W * list string :=
  match a with
  | Run text => let '(st, w') := run text w in (st, w', [text])
  | AndIf l r =>
      let '(st, w1, ran1) := exec l w in
      if st =? 0 then
        let '(st2, w2, ran2) := exec r w1 in (st2, w2, (ran1 ++ ran2)%list)
      else (st, w1, ran1)
  | OrIf l r =>
      let '(st, w1, ran1) := exec l w in
      if st =? 0 then (st, w1, ran1)
      else
        let '(st2, w2, ran2) := exec r w1 in (st2, w2, (ran1 ++ ran2)%list)
  end.

Definition status (r : Z * W * list string) : Z := fst (fst r).
Definition final (r : Z * W * list string) : W := snd (fst r).
Definition ran (r : Z * W * list string) : list string := snd r.

(** system(3) on the text of [a]: the shell runs the list and exits
    with its status. *)
Definition system_runs (sys : string -> W -> Z * W) (a : andor) : Prop :=
  forall w,
    sys (render a) w
    = (wait_status (Exited (status (exec a w))), final (exec a w)).

Definition status_in_range : Prop :=
  forall text w, 0 <= fst (run text w) < 256.

End Exec.

Arguments exec {W} run a w.
Arguments status {W} r.
Arguments final {W} r.
Arguments ran {W} r.
Arguments system_runs {W} run sys a.
Arguments status_in_range {W} run.

End Sh.

(** The two probes of [ima_IsEnabled]. *)
Definition probe_config : string := "(zcat /proc/config.gz | grep CONFIG_IMA=y)".
Definition probe_cmdline : string :=
  "(cat /proc/cmdline | grep " ++ dq ++ "ima_appraise=enforce" ++ dq ++ ")".

Definition enabled_script : Sh.andor :=
  Sh.AndIf (Sh.Run probe_config) (Sh.Run probe_cmdline).

(** The operands of the import command line. *)
Definition set_secfs : string := "SECFS=/sys/kernel/security".
Definition grep_mounts : string := "grep -q  $SECFS /proc/mounts".
Definition mount_secfs : string := "mount -n -t securityfs securityfs $SECFS".
Definition extract_ima_id : string :=
  "ima_id=" ++ dq ++ "`awk '/\.ima/ { printf " ++ dq ++ "%d" ++ dq ++ ", "
  ++ dq ++ "0x" ++ dq ++ "$1; }' /proc/keys`" ++ dq.
Definition evmctl_import (certPath : string) : string :=
  EVMCTL_PATH ++ " import " ++ certPath ++ " $ima_id".

(** What the import command line does before it reaches the import tool:
    mount the security file system unless /proc/mounts lists it, then
    extract the id of the .ima keyring from /proc/keys. *)
Definition import_prelude : Sh.andor :=
  Sh.AndIf
    (Sh.OrIf (Sh.AndIf (Sh.Run set_secfs) (Sh.Run grep_mounts))
             (Sh.Run mount_secfs))
    (Sh.Run extract_ima_id).

Definition import_script (certPath : string) : Sh.andor :=
  Sh.AndIf import_prelude (Sh.Run (evmctl_import certPath)).

(** ** A test double of the outside world

    A scripted external tool, kernel and file system.  The fixed part is the
    [config]; the part commands can change is the [machine]. *)

Module Stub.

Record config : Type := mkConfig {
  (** the certificate the import command is recognised for *)
  cert : string;
  (** how system(3) ends, that is how the shell running the command ends,
      for the verification commands that do not exit with status 0 *)
  verdicts : list (string * termination);
  (** the traversal of each root that exists *)
  trees : list (string * list FTSENT);
  (** /proc/config.gz has CONFIG_IMA=y *)
  config_ima : bool;
  (** /proc/cmdline has ima_appraise=enforce *)
  appraise_enforce : bool;
  (** mounting securityfs succeeds *)
  mount_works : bool;
  (** the id of the .ima keyring in /proc/keys, if it is listed *)
  ima_keyring : option Z;
  (** the import tool exits with status 1 when given no key id *)
  strict_import : bool
}.

Record machine : Type := mkMachine {
  secfs_mounted : bool;
  (** the certificates imported so far, each with the key id given *)
  imported : list (string * string)
}.

Fixpoint lookup {A : Type} (k : string) (l : list (string * A)) : option A :=
  match l with
  | [] => None
  | (k', a) :: l' => if (k =? k')%string then Some a else lookup k l'
  end.

(** What the awk extraction prints: the id of the .ima keyring in decimal,
    nothing when /proc/keys has no such line. *)
Definition key_id (cfg : config) : string :=
  match ima_keyring cfg with
  | Some id => decimal id
  | None => EmptyString
  end.

Definition run (cfg : config) (text : string) (m : machine) : Z * machine :=
  if (text =? probe_config)%string then
    (if config_ima cfg then 0 else 1, m)
  else if (text =? probe_cmdline)%string then
    (if appraise_enforce cfg then 0 else 1, m)
  else if (text =? set_secfs)%string then (0, m)
  else if (text =? grep_mounts)%string then
    (if secfs_mounted m then 0 else 1, m)
  else if (text =? mount_secfs)%string then
    if mount_works cfg then (0, mkMachine true (imported m)) else (32, m)
  else if (text =? extract_ima_id)%string then (0, m)
  else if (text =? evmctl_import (cert cfg))%string then
    if strict_import cfg && (key_id cfg =? EmptyString)%string then (1, m)
    else (0, mkMachine (secfs_mounted m) ((cert cfg, key_id cfg) :: imported m))
  else (127, m).

Definition sh (cfg : config) (a : Sh.andor) (m : machine) : Z * machine :=
  let r := Sh.exec (run cfg) a m in
  (wait_status (Exited (Sh.status r)), Sh.final r).

Definition sys (cfg : config) (cmd : string) (m : machine) : Z * machine :=
  if String.prefix (EVMCTL_PATH ++ " ima_verify ") cmd then
    (wait_status match lookup cmd (verdicts cfg) with
                 | Some t => t
                 | None => Exited 0
                 end, m)
  else if (cmd =? enabled_cmd)%string then sh cfg enabled_script m
  else if (cmd =? import_cmd (cert cfg))%string then
    sh cfg (import_script (cert cfg)) m
  else (wait_status (Exited 127), m).

(** fts_open returns NULL on the empty path only.  A root that does not
    exist gets a handle, and fts_read reports it as one FTS_NS entry. *)
Definition fts (cfg : config) (path : string) (_ : machine)
  : option (list FTSENT) :=
  if (path =? EmptyString)%string then None
  else match lookup path (trees cfg) with
       | Some ents => Some ents
       | None => Some [mkFTSENT FTS_NS path path path]
       end.

Definition boot : machine := mkMachine false [].

Fixpoint replicate (n : nat) (c : ascii) : string :=
  match n with
  | O => EmptyString
  | S n' => String c (replicate n' c)
  end.

(** The tree /root/{a.bin, b.bin, cert.pem}, with a symbolic link and a
    directory that cannot be read. *)
Definition pub_cert_name : string := "cert.pem".
Definition root_tree : list FTSENT :=
  [ mkFTSENT FTS_D "root" "/root" "/root";
    mkFTSENT FTS_F "a.bin" "a.bin" "/root/a.bin";
    mkFTSENT FTS_SL "link" "link" "/root/link";
    mkFTSENT FTS_DNR "locked" "locked" "/root/locked";
    mkFTSENT FTS_F "b.bin" "b.bin" "/root/b.bin";
    mkFTSENT FTS_F "cert.pem" "cert.pem" "/root/cert.pem";
    mkFTSENT FTS_F "c.bin" "c.bin" "/root/c.bin";
    mkFTSENT FTS_DP "root" "/root" "/root" ].

Definition the_cert : string := "/etc/cert.pem".

(** Every file verifies; the kernel enforces IMA and lists the .ima
    keyring. *)
Definition good : config :=
  mkConfig the_cert [] [("/root", root_tree)] true true true (Some 271828) true.

(** system(3) ends as [t] on the verification command of b.bin. *)
Definition b_ends (t : termination) : config :=
  mkConfig the_cert [(verify_cmd "b.bin" the_cert, t)] [("/root", root_tree)]
    true true true (Some 271828) true.

(** /proc/keys lists no .ima keyring, and the import tool exits zero on
    whatever arguments it is given. *)
Definition no_key : config :=
  mkConfig the_cert [] [] true true true None false.

(** The same, with an import tool that rejects an empty key id. *)
Definition no_key_strict : config :=
  mkConfig the_cert [] [] true true true None true.

(** A kernel built with IMA but booted without enforcement. *)
Definition not_enforced : config :=
  mkConfig the_cert [] [] true false true (Some 271828) true.

End Stub.

(** ** Further definitions *)

(** The number of times the traversal handle is released. *)
Fixpoint count_closes (t : list Event) : nat :=
  match t with
  | [] => O
  | EvFtsClose :: t' => S (count_closes t')
  | _ :: t' => count_closes t'
  end.

(** The records [VerifyDir] logs when it reaches an entry, oldest first. *)
Fixpoint visits (t : list Event) : list (list fmt_arg) :=
  match t with
  | [] => []
  | EvLog LE_LOG_DEBUG fmt args :: t' =>
      if (fmt =? "Filename: %s, filePath: %s, rootPath: %s, fts_info: %d")%string
      then args :: visits t'
      else visits t'
  | _ :: t' => visits t'
  end.

(** The number logged as exitCode for a command that ended as [t]. *)
Definition logged_exit_code (t : termination) : Z :=
  match t with
  | Exited code => code
  | Signaled _ _ => 0
  | SpawnFailed => 255
  end.

(** The arguments of the record [VerifyDir] logs for an entry. *)
Definition visit_args (e : FTSENT) : list fmt_arg :=
  [AStr (fts_name e); AStr (fts_accpath e); AStr (fts_path e);
   AInt (fts_info_code (fts_info e))].

(** [VerifyFile] on each file of a list in turn, up to the first that does
    not verify. *)
Fixpoint verify_each {W : Type} (sys : string -> W -> Z * W)
    (certPath : string) (files : list string) : M W le_result_t :=
  match files with
  | [] => ret LE_OK
  | filePath :: rest =>
      bind (VerifyFile sys filePath certPath)
        (fun r => match r with
                  | LE_OK => verify_each sys certPath rest
                  | LE_FAULT => ret LE_FAULT
                  end)
  end.


(** ** File trees and their traversal

    fts(3) belongs to libc, not to ima.c.  What follows is how glibc's fts
    walks a tree when opened as [VerifyDir] opens it: FTS_PHYSICAL, no
    comparison function, changing directory as it goes.  A directory is
    reported before its entries (FTS_D) and after them (FTS_DP); one that
    cannot be read is reported as FTS_D and then FTS_DNR, and its entries
    are not reported at all.  A symbolic link is reported as such and not
    followed.  The root carries the path given to fts_open as its name and
    access path; every other entry is reached under its own name. *)

#[warnings="-register-all"] Inductive node : Type :=
| File
| Symlink
| Dir (readable : bool) (entries : list (string * node)).

Fixpoint walk (name accpath path : string) (n : node) : list FTSENT :=
  match n with
  | File => [mkFTSENT FTS_F name accpath path]
  | Symlink => [mkFTSENT FTS_SL name accpath path]
  | Dir readable entries =>
      mkFTSENT FTS_D name accpath path
      :: if readable then
           ((fix walk_entries (l : list (string * node)) : list FTSENT :=
               match l with
               | [] => []
               | (child, n') :: l' =>
                   walk child child (path ++ "/" ++ child) n' ++ walk_entries l'
               end) entries
            ++ [mkFTSENT FTS_DP name accpath path])%list
         else [mkFTSENT FTS_DNR name accpath path]
  end.


(** fts_open followed by fts_read until NULL, over a file system given as
    the trees at its roots.  fts_open returns NULL on the empty path; a
    path that does not exist gets a handle and is reported as one FTS_NS
    entry. *)
Definition fts_glibc {W : Type} (fs : list (string * node))
    (path : string) (_ : W) : option (list FTSENT) :=
  if (path =? EmptyString)%string then None
  else match Stub.lookup path fs with
       | Some n => Some (walk path path path n)
       | None => Some [mkFTSENT FTS_NS path path path]
       end.

(** system(3) returning [status] for every command. *)
Definition sys_returning (status : Z) (cmd : string) (w : unit) : Z * unit :=
  (status, w).


(** A directory that holds a.bin and a directory that cannot be read, with
    bad.bin in it. *)
Definition locked_root : node :=
  Dir true [("a.bin", File); ("locked", Dir false [("bad.bin", File)])].

(** A file system with that directory at /root, and /sealed, which cannot
    be read itself. *)
Definition sealed_fs : list (string * node) :=
  [ ("/root", locked_root);
    ("/sealed", Dir false [("bad.bin", File)]) ].

(** A machine on which securityfs is not mounted and cannot be. *)
Definition stub_no_mount : Stub.config :=
  Stub.mkConfig Stub.the_cert [] [] true true false (Some 271828) true.

(** ** Wait statuses *)

Lemma WIFEXITED_mod (status : Z) : WIFEXITED status = (status mod 128 =? 0).
Proof.
  unfold WIFEXITED, WTERMSIG.
  change 127 with (Z.ones 7).
  rewrite Z.land_ones by lia.
  reflexivity.
Qed.

Lemma WEXITSTATUS_div (status : Z) : WEXITSTATUS status = (status / 256) mod 256.
Proof.
  unfold WEXITSTATUS.
  rewrite Z.shiftr_land.
  change (Z.shiftr 65280 8) with (Z.ones 8).
  rewrite Z.land_ones by lia.
  rewrite Z.shiftr_div_pow2 by lia.
  reflexivity.
Qed.

Lemma exited_zero_spec (status : Z) :
  exited_zero status = true <-> status mod 128 = 0 /\ (status / 256) mod 256 = 0.
Proof.
  unfold exited_zero.
  rewrite WIFEXITED_mod, WEXITSTATUS_div, andb_true_iff, !Z.eqb_eq.
  intuition lia.
Qed.

Lemma wait_status_exited (code : Z) : wait_status (Exited code) = code * 256.
Proof. unfold wait_status. rewrite Z.shiftl_mul_pow2 by lia. reflexivity. Qed.

Lemma WTERMSIG_signaled (sig : Z) (core : bool) :
  0 <= sig < 128 -> WTERMSIG (wait_status (Signaled sig core)) = sig.
Proof.
  intros Hsig. unfold WTERMSIG, wait_status.
  rewrite Z.land_lor_distr_l.
  change 127 with (Z.ones 7).
  rewrite !Z.land_ones by lia.
  rewrite (Z.mod_small sig) by (change (2 ^ 7) with 128; lia).
  destruct core; simpl; apply Z.lor_0_r.
Qed.

Lemma WEXITSTATUS_signaled (sig : Z) (core : bool) :
  0 <= sig < 128 -> WEXITSTATUS (wait_status (Signaled sig core)) = 0.
Proof.
  intros Hsig. rewrite WEXITSTATUS_div. unfold wait_status.
  assert (Hlt : 0 <= Z.lor sig (if core then 128 else 0) < 256).
  { split.
    - apply Z.lor_nonneg. destruct core; lia.
    - assert (Hlog : forall x, 0 <= x < 2 ^ 8 -> forall y, 0 <= y < 2 ^ 8 ->
                               Z.lor x y < 2 ^ 8).
      { intros x Hx y Hy.
        destruct (Z.eq_dec (Z.lor x y) 0) as [E | E]; [rewrite E; lia |].
        apply Z.log2_lt_pow2.
        - assert (0 <= Z.lor x y) by (apply Z.lor_nonneg; lia). lia.
        - rewrite Z.log2_lor by lia.
          apply Z.max_lub_lt.
          + destruct (Z.eq_dec x 0) as [-> | Nx]; [simpl; lia |].
            apply Z.log2_lt_pow2; lia.
          + destruct (Z.eq_dec y 0) as [-> | Ny]; [simpl; lia |].
            apply Z.log2_lt_pow2; lia. }
      change 256 with (2 ^ 8).
      apply Hlog; destruct core; change (2 ^ 8) with 256; lia. }
  rewrite Z.div_small by lia. reflexivity.
Qed.

Lemma exited_zero_wait_status (t : termination) :
  termination_wf t -> (exited_zero (wait_status t) = true <-> t = Exited 0).
Proof.
  intros Hwf. destruct t as [code | sig core |].
  - simpl in Hwf. rewrite exited_zero_spec, wait_status_exited.
    rewrite Z.div_mul by lia. rewrite (Z.mod_small code 256) by lia.
    assert (H128 : (code * 256) mod 128 = 0).
    { replace (code * 256) with (code * 2 * 128) by lia. apply Z.mod_mul. lia. }
    split.
    + intros [_ ->]. reflexivity.
    + intros E. injection E as ->. split; reflexivity.
  - simpl in Hwf. split; [| discriminate].
    unfold exited_zero, WIFEXITED. rewrite WTERMSIG_signaled by lia.
    intros H. apply andb_true_iff in H as [H _]. apply Z.eqb_eq in H. lia.
  - split; [| discriminate]. vm_compute. discriminate.
Qed.

(** ** Strings *)

Lemma compare_same (a : string) : String.compare a a = Eq.
Proof.
  pose proof (String.compare_antisym a a) as H.
  destruct (String.compare a a); [reflexivity | discriminate H | discriminate H].
Qed.

Lemma strcmp_zero (a b : string) : (0 =? strcmp a b) = true <-> a = b.
Proof.
  unfold strcmp. split.
  - destruct (String.compare a b) eqn:E; try discriminate.
    intros _. apply String.compare_eq_iff. exact E.
  - intros ->. rewrite compare_same. reflexivity.
Qed.

Lemma length_take (n : nat) (s : string) :
  String.length (take n s) = Nat.min n (String.length s).
Proof.
  revert s. induction n as [| n IH]; intros [| c s]; cbn; try reflexivity.
  rewrite IH. reflexivity.
Qed.

Lemma take_all (n : nat) (s : string) :
  (String.length s <= n)%nat -> take n s = s.
Proof.
  revert s. induction n as [| n IH]; intros [| c s] Hlen; cbn in *;
    try reflexivity; try lia.
  rewrite IH by lia. reflexivity.
Qed.

Lemma take_cut (n : nat) (s : string) :
  (n < String.length s)%nat ->
  String.length (take n s) = n /\ take n s <> s.
Proof.
  intros Hlen. pose proof (length_take n s) as Hl. split; [lia |].
  intros E. rewrite E in Hl. lia.
Qed.

Lemma verify_cmd_take (filePath certPath : string) :
  verify_cmd filePath certPath
  = take 4095 (format "%s ima_verify %s -k %s "
                 [AStr EVMCTL_PATH; AStr filePath; AStr certPath]).
Proof.
  unfold verify_cmd, snprintf, MAX_CMD_BYTES.
  change (4096 - 1)%nat with 4095%nat. reflexivity.
Qed.

Lemma import_cmd_take (certPath : string) :
  import_cmd certPath
  = take 4095 (format import_format [AStr EVMCTL_PATH; AStr certPath]).
Proof.
  unfold import_cmd, snprintf, MAX_CMD_BYTES.
  change (4096 - 1)%nat with 4095%nat. reflexivity.
Qed.

Lemma eligible_spec (PUB_CERT_NAME : string) (e : FTSENT) :
  eligible PUB_CERT_NAME e = true
  <-> fts_info e = FTS_F /\ fts_name e <> PUB_CERT_NAME.
Proof.
  unfold eligible.
  destruct (fts_info e); try (split; [discriminate | intros [? _]; discriminate]).
  rewrite negb_true_iff, <- not_true_iff_false, strcmp_zero.
  tauto.
Qed.

(** ** The functions, run *)

Section Runs.

Variable W : Type.
Variable sys : string -> W -> Z * W.
Variable PUB_CERT_NAME : string.

Lemma VerifyFile_run (filePath certPath : string) (w : W) :
  VerifyFile sys filePath certPath w
  = (if exited_zero (fst (sys (verify_cmd filePath certPath) w))
     then LE_OK else LE_FAULT,
     snd (sys (verify_cmd filePath certPath) w),
     verify_events filePath certPath (fst (sys (verify_cmd filePath certPath) w))).
Proof.
  unfold VerifyFile, verify_events, bind, system, LE_DEBUG, LE_ERROR, emit, ret,
    verify_cmd.
  generalize (snprintf MAX_CMD_BYTES "%s ima_verify %s -k %s "
                [AStr EVMCTL_PATH; AStr filePath; AStr certPath]).
  intros cmd. destruct (sys cmd w) as [status w'].
  cbn [fst snd]. fold (exited_zero status).
  destruct (exited_zero status); reflexivity.
Qed.

Lemma VerifyFile_result (filePath certPath : string) (w : W) :
  result (VerifyFile sys filePath certPath w)
  = if exited_zero (fst (sys (verify_cmd filePath certPath) w))
    then LE_OK else LE_FAULT.
Proof. rewrite VerifyFile_run. reflexivity. Qed.

Lemma VerifyFile_events (filePath certPath : string) (w : W) :
  events (VerifyFile sys filePath certPath w)
  = verify_events filePath certPath (fst (sys (verify_cmd filePath certPath) w)).
Proof. rewrite VerifyFile_run. reflexivity. Qed.

Lemma VerifyFile_ok_iff (filePath certPath : string) (w : W) :
  result (VerifyFile sys filePath certPath w) = LE_OK
  <-> exited_zero (fst (sys (verify_cmd filePath certPath) w)) = true.
Proof.
  rewrite VerifyFile_result.
  destruct (exited_zero _); split; congruence.
Qed.

Lemma VerifyFile_fault_iff (filePath certPath : string) (w : W) :
  result (VerifyFile sys filePath certPath w) = LE_FAULT
  <-> exited_zero (fst (sys (verify_cmd filePath certPath) w)) = false.
Proof.
  rewrite VerifyFile_result.
  destruct (exited_zero _); split; congruence.
Qed.

Lemma commands_verify_events (filePath certPath : string) (status : Z) :
  commands (verify_events filePath certPath status) = [verify_cmd filePath certPath].
Proof. unfold verify_events. destruct (exited_zero status); reflexivity. Qed.

Lemma loop_nil (certPath : string) (w : W) :
  VerifyDir_loop sys PUB_CERT_NAME certPath [] w = (LE_OK, w, [EvFtsClose]).
Proof. reflexivity. Qed.

Lemma loop_skip (certPath : string) (e : FTSENT) (rest : list FTSENT) (w : W) :
  eligible PUB_CERT_NAME e = false ->
  VerifyDir_loop sys PUB_CERT_NAME certPath (e :: rest) w
  = (result (VerifyDir_loop sys PUB_CERT_NAME certPath rest w), world (VerifyDir_loop sys PUB_CERT_NAME certPath rest w),
     visit_event e :: events (VerifyDir_loop sys PUB_CERT_NAME certPath rest w)).
Proof.
  intros He. cbn [VerifyDir_loop]. unfold bind at 1. unfold LE_DEBUG, emit.
  fold (visit_event e).
  unfold eligible in He.
  destruct (fts_info e); try rewrite He;
    destruct (VerifyDir_loop sys PUB_CERT_NAME certPath rest w) as [[r w'] t]; reflexivity.
Qed.

Lemma loop_visit (certPath : string) (e : FTSENT) (rest : list FTSENT) (w : W) :
  eligible PUB_CERT_NAME e = true ->
  VerifyDir_loop sys PUB_CERT_NAME certPath (e :: rest) w
  = let v := VerifyFile sys (fts_accpath e) certPath w in
    match result v with
    | LE_OK =>
        (result (VerifyDir_loop sys PUB_CERT_NAME certPath rest (world v)),
         world (VerifyDir_loop sys PUB_CERT_NAME certPath rest (world v)),
         visit_event e :: events v ++ events (VerifyDir_loop sys PUB_CERT_NAME certPath rest (world v)))
    | LE_FAULT =>
        (LE_FAULT, world v, visit_event e :: events v ++ abort_events e certPath)
    end%list.
Proof.
  intros He. cbn [VerifyDir_loop]. unfold bind at 1. unfold LE_DEBUG, emit.
  fold (visit_event e).
  unfold eligible in He.
  destruct (fts_info e); try discriminate He. rewrite He.
  unfold bind at 1.
  destruct (VerifyFile sys (fts_accpath e) certPath w) as [[r w'] t].
  cbn [result world events fst snd].
  destruct r; cbn [le_result_eqb negb].
  - destruct (VerifyDir_loop sys PUB_CERT_NAME certPath rest w') as [[r2 w2] t2]. reflexivity.
  - reflexivity.
Qed.

Lemma ImportPublicCert_run (certPath : string) (w : W) :
  ImportPublicCert sys certPath w
  = (if exited_zero (fst (sys (import_cmd certPath) w)) then LE_OK else LE_FAULT,
     snd (sys (import_cmd certPath) w),
     import_events certPath (fst (sys (import_cmd certPath) w))).
Proof.
  unfold ImportPublicCert, import_events, bind, system, LE_DEBUG, LE_ERROR, emit,
    ret, import_cmd.
  generalize (snprintf MAX_CMD_BYTES import_format [AStr EVMCTL_PATH; AStr certPath]).
  intros cmd. destruct (sys cmd w) as [status w'].
  cbn [fst snd]. fold (exited_zero status).
  destruct (exited_zero status); reflexivity.
Qed.

Lemma ima_IsEnabled_run (w : W) :
  ima_IsEnabled sys w
  = (exited_zero (fst (sys enabled_cmd w)), snd (sys enabled_cmd w),
     [EvSystem enabled_cmd (fst (sys enabled_cmd w))]).
Proof.
  unfold ima_IsEnabled, bind, system, ret.
  destruct (sys enabled_cmd w) as [status w']. reflexivity.
Qed.

End Runs.

(** ** Single-file verification *)

Section VerifyFileProperties.

Variable W : Type.
Variable sys : string -> W -> Z * W.

(** C2. [VerifyFile] runs one external command, and returns LE_OK exactly
    when that command terminates normally with exit status zero: a
    non-zero exit, termination by a signal and a failure to create the
    child all yield LE_FAULT. *)
Theorem VerifyFile_ok_iff_exited_zero
    (filePath certPath : string) (w : W) (t : termination) :
  termination_wf t ->
  fst (sys (verify_cmd filePath certPath) w) = wait_status t ->
  commands (events (VerifyFile sys filePath certPath w))
  = [verify_cmd filePath certPath]
  /\ (result (VerifyFile sys filePath certPath w) = LE_OK <-> t = Exited 0)
  /\ (t <> Exited 0 -> result (VerifyFile sys filePath certPath w) = LE_FAULT).
Proof.
  intros Hwf Hst.
  rewrite VerifyFile_events, commands_verify_events, VerifyFile_result, Hst.
  pose proof (exited_zero_wait_status t Hwf) as Hz.
  split; [reflexivity |].
  destruct (exited_zero (wait_status t)).
  - split; [tauto |]. intros Hne. exfalso. apply Hne. apply Hz. reflexivity.
  - split; [| reflexivity].
    split; [discriminate |]. intros E. apply Hz in E. discriminate E.
Qed.

(** C10. The command line of [VerifyFile] and of [ImportPublicCert] is the
    expansion of the format cut to its first 4095 bytes.  Nothing is
    reported when the expansion is longer: the cut command is run, and the
    result is decided by the wait status of that command alone. *)
Theorem command_truncated_silently (filePath certPath : string) (w : W) :
  let full := format "%s ima_verify %s -k %s "
                [AStr EVMCTL_PATH; AStr filePath; AStr certPath] in
  let full_import := format import_format [AStr EVMCTL_PATH; AStr certPath] in
  (commands (events (VerifyFile sys filePath certPath w)) = [take 4095 full]
   /\ (result (VerifyFile sys filePath certPath w) = LE_OK
       <-> exited_zero (fst (sys (take 4095 full) w)) = true)
   /\ (result (VerifyFile sys filePath certPath w) = LE_FAULT
       <-> exited_zero (fst (sys (take 4095 full) w)) = false)
   /\ ((4095 < String.length full)%nat ->
       String.length (take 4095 full) = 4095%nat /\ take 4095 full <> full)
   /\ (forall filePath',
         take 4095 (format "%s ima_verify %s -k %s "
                      [AStr EVMCTL_PATH; AStr filePath'; AStr certPath])
         = take 4095 full ->
         result (VerifyFile sys filePath' certPath w)
         = result (VerifyFile sys filePath certPath w)
         /\ world (VerifyFile sys filePath' certPath w)
            = world (VerifyFile sys filePath certPath w)))
  /\
  (commands (events (ImportPublicCert sys certPath w)) = [take 4095 full_import]
   /\ (result (ImportPublicCert sys certPath w) = LE_OK
       <-> exited_zero (fst (sys (take 4095 full_import) w)) = true)
   /\ (result (ImportPublicCert sys certPath w) = LE_FAULT
       <-> exited_zero (fst (sys (take 4095 full_import) w)) = false)
   /\ ((4095 < String.length full_import)%nat ->
       String.length (take 4095 full_import) = 4095%nat
       /\ take 4095 full_import <> full_import)).
Proof.
  intros full full_import. subst full full_import.
  rewrite <- verify_cmd_take, <- import_cmd_take.
  split.
  - rewrite VerifyFile_events, commands_verify_events.
    split; [reflexivity |].
    split; [apply VerifyFile_ok_iff |].
    split; [apply VerifyFile_fault_iff |].
    split; [intros Hlong; apply take_cut; exact Hlong |].
    intros filePath' Hsame. rewrite <- verify_cmd_take in Hsame.
    rewrite !VerifyFile_run, Hsame. split; reflexivity.
  - rewrite ImportPublicCert_run. cbn [events result fst snd].
    split.
    { unfold import_events.
      destruct (exited_zero (fst (sys (import_cmd certPath) w))); reflexivity. }
    split.
    { destruct (exited_zero (fst (sys (import_cmd certPath) w)));
        split; congruence. }
    split.
    { destruct (exited_zero (fst (sys (import_cmd certPath) w)));
        split; congruence. }
    intros Hlong. apply take_cut. exact Hlong.
Qed.

End VerifyFileProperties.

(** ** Traces *)

Lemma commands_app (a b : list Event) :
  commands (a ++ b) = (commands a ++ commands b)%list.
Proof.
  induction a as [| e a IH]; [reflexivity |].
  destruct e; cbn; rewrite IH; reflexivity.
Qed.

Lemma abort_tail_shape (t : list Event) :
  is_abort_tail t = true ->
  exists fmt1 args1 fmt2 args2,
    t = [EvLog LE_LOG_ERR fmt1 args1; EvLog LE_LOG_CRIT fmt2 args2; EvFtsClose].
Proof.
  unfold is_abort_tail. intros H.
  destruct t as [| [[] fmt1 args1 | | |] t]; try discriminate H.
  destruct t as [| [[] fmt2 args2 | | |] t]; try discriminate H.
  destruct t as [| [| | |] t]; try discriminate H.
  destruct t; [| discriminate H].
  eauto.
Qed.

Lemma abort_tail_no_system (before : list Event) (cmd : string) (status : Z)
    (after : list Event) :
  is_abort_tail (before ++ EvSystem cmd status :: after) = false.
Proof.
  destruct (is_abort_tail _) eqn:E; [| reflexivity].
  apply abort_tail_shape in E as (fmt1 & args1 & fmt2 & args2 & E).
  destruct before as [| a [| b [| c before]]]; cbn in E; try discriminate E.
  injection E as _ _ _ E. destruct before; discriminate E.
Qed.

Lemma stops_at_first_failure_split
    (before : list Event) (cmd : string) (status : Z) (after : list Event) :
  stops_at_first_failure (before ++ EvSystem cmd status :: after) = true ->
  exited_zero status = false ->
  is_abort_tail after = true.
Proof.
  intros Hstops Hfail.
  induction before as [| e before IH]; cbn [app stops_at_first_failure] in Hstops.
  - rewrite Hfail in Hstops. exact Hstops.
  - destruct e as [lvl fmt args | cmd' status' | path opened |];
      try (apply IH; exact Hstops).
    destruct (exited_zero status'); [apply IH; exact Hstops |].
    rewrite abort_tail_no_system in Hstops. discriminate Hstops.
Qed.

Lemma all_exited_zero_split
    (before : list Event) (cmd : string) (status : Z) (after : list Event) :
  all_exited_zero (before ++ EvSystem cmd status :: after) = true ->
  exited_zero status = true.
Proof.
  unfold all_exited_zero. rewrite forallb_app. cbn.
  intros H. apply andb_true_iff in H as [_ H].
  apply andb_true_iff in H as [H _]. exact H.
Qed.

Lemma stops_verify_events (filePath certPath : string) (status : Z) (t : list Event) :
  stops_at_first_failure (verify_events filePath certPath status ++ t)
  = if exited_zero status then stops_at_first_failure t
    else match t with
         | [EvLog LE_LOG_CRIT _ _; EvFtsClose] => true
         | _ => false
         end.
Proof.
  unfold verify_events. cbn [app stops_at_first_failure].
  destruct (exited_zero status); reflexivity.
Qed.

Lemma all_exited_zero_verify_events
    (filePath certPath : string) (status : Z) (t : list Event) :
  all_exited_zero (verify_events filePath certPath status ++ t)
  = exited_zero status && all_exited_zero t.
Proof.
  unfold verify_events, all_exited_zero. cbn.
  destruct (exited_zero status); reflexivity.
Qed.

(** ** Directory verification *)

Section VerifyDirProperties.

Variable W : Type.
Variable sys : string -> W -> Z * W.
Variable PUB_CERT_NAME : string.

Lemma loop_cons (certPath : string) (e : FTSENT) (rest : list FTSENT) (w : W) :
  VerifyDir_loop sys PUB_CERT_NAME certPath (e :: rest) w
  = let status := fst (sys (verify_cmd (fts_accpath e) certPath) w) in
    let w' := snd (sys (verify_cmd (fts_accpath e) certPath) w) in
    if eligible PUB_CERT_NAME e then
      if exited_zero status then
        (result (VerifyDir_loop sys PUB_CERT_NAME certPath rest w'),
         world (VerifyDir_loop sys PUB_CERT_NAME certPath rest w'),
         visit_event e
         :: verify_events (fts_accpath e) certPath status
            ++ events (VerifyDir_loop sys PUB_CERT_NAME certPath rest w'))%list
      else
        (LE_FAULT, w',
         visit_event e
         :: verify_events (fts_accpath e) certPath status
            ++ abort_events e certPath)%list
    else
      (result (VerifyDir_loop sys PUB_CERT_NAME certPath rest w),
       world (VerifyDir_loop sys PUB_CERT_NAME certPath rest w),
       visit_event e :: events (VerifyDir_loop sys PUB_CERT_NAME certPath rest w)).
Proof.
  cbv zeta. destruct (eligible PUB_CERT_NAME e) eqn:He.
  - rewrite loop_visit by exact He. cbv zeta.
    rewrite VerifyFile_run. cbn [result world events fst snd].
    destruct (exited_zero _); reflexivity.
  - apply loop_skip. exact He.
Qed.

Lemma loop_stops (certPath : string) (ents : list FTSENT) (w : W) :
  stops_at_first_failure
    (events (VerifyDir_loop sys PUB_CERT_NAME certPath ents w)) = true.
Proof.
  revert w. induction ents as [| e rest IH]; intros w; [reflexivity |].
  rewrite loop_cons. cbv zeta.
  destruct (eligible PUB_CERT_NAME e).
  - destruct (exited_zero _) eqn:Hz; cbn [events snd stops_at_first_failure visit_event];
      rewrite stops_verify_events, Hz; [apply IH | reflexivity].
  - cbn [events snd stops_at_first_failure visit_event]. apply IH.
Qed.

Lemma loop_ok_iff_all_exited_zero (certPath : string) (ents : list FTSENT) (w : W) :
  result (VerifyDir_loop sys PUB_CERT_NAME certPath ents w) = LE_OK
  <-> all_exited_zero
        (events (VerifyDir_loop sys PUB_CERT_NAME certPath ents w)) = true.
Proof.
  revert w. induction ents as [| e rest IH]; intros w.
  - cbn. tauto.
  - rewrite loop_cons. cbv zeta.
    destruct (eligible PUB_CERT_NAME e).
    + destruct (exited_zero _) eqn:Hz; cbn [events result fst snd].
      * change (all_exited_zero (visit_event e :: ?t)) with (all_exited_zero t).
        rewrite all_exited_zero_verify_events, Hz. apply IH.
      * change (all_exited_zero (visit_event e :: ?t)) with (all_exited_zero t).
        rewrite all_exited_zero_verify_events, Hz.
        split; discriminate.
    + cbn [events result fst snd].
      change (all_exited_zero (visit_event e :: ?t)) with (all_exited_zero t).
      apply IH.
Qed.

(** The commands the loop runs are the verification commands of the
    eligible entries among those it visited, in the order of the
    traversal; it visited all entries when it returns LE_OK. *)
Lemma loop_commands (certPath : string) (ents : list FTSENT) (w : W) :
  exists visited rest,
    ents = (visited ++ rest)%list
    /\ commands (events (VerifyDir_loop sys PUB_CERT_NAME certPath ents w))
       = map (fun e => verify_cmd (fts_accpath e) certPath)
           (filter (eligible PUB_CERT_NAME) visited)
    /\ (result (VerifyDir_loop sys PUB_CERT_NAME certPath ents w) = LE_OK ->
        rest = []).
Proof.
  revert w. induction ents as [| e ents IH]; intros w.
  - exists [], []. repeat split.
  - rewrite loop_cons. cbv zeta.
    destruct (eligible PUB_CERT_NAME e) eqn:He.
    + destruct (exited_zero _) eqn:Hz.
      * destruct (IH (snd (sys (verify_cmd (fts_accpath e) certPath) w)))
          as (visited & rest & Hents & Hcmds & Hok).
        exists (e :: visited), rest. cbn [events result fst snd].
        split; [rewrite Hents; reflexivity |].
        split; [| exact Hok].
        cbn [commands visit_event filter]. rewrite He.
        rewrite commands_app, commands_verify_events, Hcmds. reflexivity.
      * exists [e], ents. cbn [events result fst snd].
        split; [reflexivity |].
        split; [| discriminate].
        cbn [commands visit_event filter]. rewrite He.
        rewrite commands_app, commands_verify_events. reflexivity.
    + destruct (IH w) as (visited & rest & Hents & Hcmds & Hok).
      exists (e :: visited), rest. cbn [events result fst snd].
      split; [rewrite Hents; reflexivity |].
      split; [| exact Hok].
      cbn [commands visit_event filter]. rewrite He. exact Hcmds.
Qed.

Lemma loop_ok_iff_fixed (certPath : string) :
  verifier_fixed sys certPath ->
  forall (ents : list FTSENT) (w w0 : W),
    result (VerifyDir_loop sys PUB_CERT_NAME certPath ents w) = LE_OK
    <-> (forall e, In e ents -> eligible PUB_CERT_NAME e = true ->
           exited_zero (fst (sys (verify_cmd (fts_accpath e) certPath) w0)) = true).
Proof.
  intros Hfixed ents. induction ents as [| e rest IH]; intros w w0.
  - cbn. split; [intros _ e [] | reflexivity].
  - rewrite loop_cons. cbv zeta. rewrite (Hfixed (fts_accpath e) w w0).
    destruct (eligible PUB_CERT_NAME e) eqn:He.
    + destruct (exited_zero _) eqn:Hz; cbn [result fst].
      * rewrite (IH _ w0). split.
        -- intros H e' [<- | Hin] He'; [exact Hz | apply H; assumption].
        -- intros H e' Hin. apply H. right. exact Hin.
      * split; [discriminate |]. intros H.
        rewrite H in Hz by (try left; trivial). discriminate Hz.
    + cbn [result fst]. rewrite (IH _ w0). split.
      * intros H e' [<- | Hin] He'; [congruence | apply H; assumption].
      * intros H e' Hin. apply H. right. exact Hin.
Qed.

Lemma loop_first_failure_fixed (certPath : string) :
  verifier_fixed sys certPath ->
  forall (pre : list FTSENT) (e : FTSENT) (post : list FTSENT) (w w0 : W),
    (forall e', In e' pre -> eligible PUB_CERT_NAME e' = true ->
       exited_zero (fst (sys (verify_cmd (fts_accpath e') certPath) w0)) = true) ->
    eligible PUB_CERT_NAME e = true ->
    exited_zero (fst (sys (verify_cmd (fts_accpath e) certPath) w0)) = false ->
    result (VerifyDir_loop sys PUB_CERT_NAME certPath (pre ++ e :: post) w) = LE_FAULT
    /\ commands (events (VerifyDir_loop sys PUB_CERT_NAME certPath
                           (pre ++ e :: post) w))
       = map (fun e => verify_cmd (fts_accpath e) certPath)
           (filter (eligible PUB_CERT_NAME) pre ++ [e]).
Proof.
  intros Hfixed pre e post. induction pre as [| a pre IH]; intros w w0 Hpre He Hfail.
  - cbn [app filter map]. rewrite loop_cons. cbv zeta.
    rewrite (Hfixed (fts_accpath e) w w0), He, Hfail.
    cbn [result events fst snd commands visit_event].
    rewrite commands_app, commands_verify_events. split; reflexivity.
  - change ((a :: pre) ++ e :: post)%list with (a :: (pre ++ e :: post))%list.
    rewrite loop_cons. cbv zeta. rewrite (Hfixed (fts_accpath a) w w0).
    cbn [filter].
    destruct (eligible PUB_CERT_NAME a) eqn:Ha.
    + rewrite (Hpre a) by (try left; trivial).
      cbn [result events fst snd commands visit_event].
      rewrite commands_app, commands_verify_events.
      destruct (IH (snd (sys (verify_cmd (fts_accpath a) certPath) w)) w0)
        as [Hres Hcmds]; try assumption.
      { intros e' Hin. apply Hpre. right. exact Hin. }
      rewrite Hcmds. split; [exact Hres | reflexivity].
    + cbn [result events fst snd commands visit_event].
      apply (IH _ w0); try assumption.
      intros e' Hin. apply Hpre. right. exact Hin.
Qed.


Lemma VerifyDir_run (fts : string -> W -> option (list FTSENT))
    (dirPath certPath : string) (w : W) :
  VerifyDir sys fts PUB_CERT_NAME dirPath certPath w
  = match fts dirPath w with
    | None =>
        (LE_FAULT, w,
         [ EvFtsOpen dirPath false;
           EvLog LE_LOG_CRIT "Could not access dir '%s'.  %m." [AStr dirPath] ])
    | Some ents =>
        (result (VerifyDir_loop sys PUB_CERT_NAME certPath ents w),
         world (VerifyDir_loop sys PUB_CERT_NAME certPath ents w),
         EvFtsOpen dirPath true
         :: events (VerifyDir_loop sys PUB_CERT_NAME certPath ents w))
    end.
Proof.
  unfold VerifyDir, bind at 1, fts_open.
  destruct (fts dirPath w) as [ents |].
  - destruct (VerifyDir_loop sys PUB_CERT_NAME certPath ents w) as [[r w'] t].
    reflexivity.
  - reflexivity.
Qed.


End VerifyDirProperties.

Section VerifyDirClaims.

Variable W : Type.
Variable sys : string -> W -> Z * W.
Variable fts : string -> W -> option (list FTSENT).
Variable PUB_CERT_NAME : string.

(** C3. Whatever the entries and their order, once a command of a
    [VerifyDir] call has ended otherwise than by exit status zero, the
    call runs no further command and visits no further entry: it logs the
    failure, closes the traversal and returns LE_FAULT. *)
Theorem VerifyDir_stops_at_first_fault
    (dirPath certPath : string) (w : W)
    (before : list Event) (cmd : string) (status : Z) (after : list Event) :
  events (VerifyDir sys fts PUB_CERT_NAME dirPath certPath w)
  = (before ++ EvSystem cmd status :: after)%list ->
  exited_zero status = false ->
  commands after = []
  /\ (forall e, ~ In (visit_event e) after)
  /\ (exists fmt1 args1 fmt2 args2,
        after = [ EvLog LE_LOG_ERR fmt1 args1;
                  EvLog LE_LOG_CRIT fmt2 args2;
                  EvFtsClose ])
  /\ result (VerifyDir sys fts PUB_CERT_NAME dirPath certPath w) = LE_FAULT.
Proof.
  rewrite VerifyDir_run. intros Hev Hfail.
  destruct (fts dirPath w) as [ents |]; cbn [events result fst snd] in *.
  - pose proof (loop_stops W sys PUB_CERT_NAME certPath ents w) as Hstops.
    pose proof (loop_ok_iff_all_exited_zero W sys PUB_CERT_NAME certPath ents w)
      as Hok.
    destruct before as [| b before]; [discriminate Hev |].
    injection Hev as _ Hev. rewrite Hev in Hstops, Hok.
    pose proof (stops_at_first_failure_split before cmd status after Hstops Hfail)
      as Htail.
    destruct (abort_tail_shape after Htail) as (fmt1 & args1 & fmt2 & args2 & ->).
    split; [reflexivity |]. split.
    { intros e [H | [H | [H | []]]]; discriminate H. }
    split; [eauto |].
    destruct (result (VerifyDir_loop sys PUB_CERT_NAME certPath ents w));
      [| reflexivity].
    pose proof (all_exited_zero_split before cmd status _ (proj1 Hok eq_refl)) as Hz.
    congruence.
  - destruct before as [| b [| b' before]]; try discriminate Hev.
    injection Hev as _ _ Hev. destruct before; discriminate Hev.
Qed.

(** C5. The commands a [VerifyDir] call runs are the verification
    commands of the entries it visited that are regular files with a name
    other than that of the public certificate, one per entry and in
    traversal order; a regular file named as the certificate gets none.
    When the call returns LE_OK it visited every entry, so every other
    regular file was verified. *)
Theorem VerifyDir_never_verifies_certificate
    (dirPath certPath : string) (w : W) (ents : list FTSENT) :
  fts dirPath w = Some ents ->
  exists visited rest,
    ents = (visited ++ rest)%list
    /\ commands (events (VerifyDir sys fts PUB_CERT_NAME dirPath certPath w))
       = map (fun e => verify_cmd (fts_accpath e) certPath)
           (filter (fun e => match fts_info e with
                             | FTS_F => negb (0 =? strcmp (fts_name e) PUB_CERT_NAME)
                             | _ => false
                             end) visited)
    /\ (forall e, In e visited -> fts_info e = FTS_F ->
          fts_name e = PUB_CERT_NAME ->
          ~ In e (filter (eligible PUB_CERT_NAME) visited))
    /\ (result (VerifyDir sys fts PUB_CERT_NAME dirPath certPath w) = LE_OK ->
        visited = ents).
Proof.
  intros Hfts. rewrite VerifyDir_run, Hfts. cbn [events result fst snd commands].
  destruct (loop_commands W sys PUB_CERT_NAME certPath ents w)
    as (visited & rest & Hents & Hcmds & Hok).
  exists visited, rest. split; [exact Hents |].
  split; [exact Hcmds |]. split.
  - intros e _ _ Hname Hin. apply filter_In in Hin as [_ He].
    apply (proj1 (eligible_spec PUB_CERT_NAME e)) in He as [_ Hne]. contradiction.
  - intros Hres. rewrite (Hok Hres), app_nil_r in Hents. congruence.
Qed.


End VerifyDirClaims.

(** ** The two fixed command lines under the shell *)

Lemma render_enabled_script : Sh.render enabled_script = enabled_cmd.
Proof. reflexivity. Qed.

Lemma render_import_script (certPath : string) :
  Sh.render (import_script certPath)
  = format import_format [AStr EVMCTL_PATH; AStr certPath].
Proof. cbn. reflexivity. Qed.

Lemma exited_zero_exit_status (st : Z) :
  0 <= st < 256 -> (exited_zero (wait_status (Exited st)) = true <-> st = 0).
Proof.
  intros Hst. rewrite (exited_zero_wait_status (Exited st) Hst).
  split; [intros E; injection E as ->; reflexivity | intros ->; reflexivity].
Qed.

Lemma exec_status_in_range (W : Type) (run : string -> W -> Z * W) :
  Sh.status_in_range run ->
  forall (a : Sh.andor) (w : W), 0 <= Sh.status (Sh.exec run a w) < 256.
Proof.
  intros Hrange a. induction a as [text | l IHl r IHr | l IHl r IHr]; intros w.
  - cbn [Sh.exec]. pose proof (Hrange text w) as R.
    destruct (run text w) as [st w']. exact R.
  - cbn [Sh.exec]. specialize (IHl w).
    destruct (Sh.exec run l w) as [[st w1] ran1]. cbn [Sh.status fst] in IHl.
    destruct (st =? 0); [| exact IHl].
    specialize (IHr w1). destruct (Sh.exec run r w1) as [[st2 w2] ran2].
    exact IHr.
  - cbn [Sh.exec]. specialize (IHl w).
    destruct (Sh.exec run l w) as [[st w1] ran1]. cbn [Sh.status fst] in IHl.
    destruct (st =? 0); [exact IHl |].
    specialize (IHr w1). destruct (Sh.exec run r w1) as [[st2 w2] ran2].
    exact IHr.
Qed.

Section ShellProperties.

Variable W : Type.
Variable sys : string -> W -> Z * W.
Variable run : string -> W -> Z * W.

(** C6. Under sh, [ima_IsEnabled] returns true exactly when the probe of
    the kernel configuration and the probe of the boot command line both
    exit with status zero, and false when either does not.  Its only
    action is that one command; as the two probes only read, the world is
    left as it was. *)
Theorem ima_IsEnabled_iff_both_probes (w : W) :
  Sh.system_runs run sys enabled_script ->
  Sh.status_in_range run ->
  (forall w', snd (run probe_config w') = w') ->
  (forall w', snd (run probe_cmdline w') = w') ->
  (result (ima_IsEnabled sys w) = true
   <-> fst (run probe_config w) = 0 /\ fst (run probe_cmdline w) = 0)
  /\ (result (ima_IsEnabled sys w) = false
      <-> fst (run probe_config w) <> 0 \/ fst (run probe_cmdline w) <> 0)
  /\ world (ima_IsEnabled sys w) = w
  /\ commands (events (ima_IsEnabled sys w)) = [enabled_cmd]
  /\ logs (events (ima_IsEnabled sys w)) = [].
Proof.
  intros Hruns Hrange Hro1 Hro2.
  rewrite ima_IsEnabled_run. cbn [result world events fst snd commands logs].
  rewrite <- render_enabled_script, (Hruns w). cbn [fst snd].
  unfold enabled_script. cbn [Sh.exec].
  pose proof (Hrange probe_config w) as R1.
  pose proof (Hro1 w) as E1.
  destruct (run probe_config w) as [st1 w1]. cbn [fst snd] in *. subst w1.
  pose proof (Hrange probe_cmdline w) as R2.
  pose proof (Hro2 w) as E2.
  destruct (Z.eqb_spec st1 0) as [-> | Hne1].
  - destruct (run probe_cmdline w) as [st2 w2]. cbn [fst snd] in *. subst w2.
    cbn [Sh.status Sh.final fst snd].
    pose proof (exited_zero_exit_status st2 R2) as Hz.
    destruct (exited_zero (wait_status (Exited st2))).
    + assert (st2 = 0) as -> by (apply Hz; reflexivity).
      repeat split; intros; try discriminate; intuition congruence.
    + assert (st2 <> 0) by (intros E; apply Hz in E; discriminate E).
      repeat split; intros; try discriminate; intuition congruence.
  - cbn [Sh.status Sh.final fst snd].
    pose proof (exited_zero_exit_status st1 R1) as Hz.
    destruct (exited_zero (wait_status (Exited st1))).
    + exfalso. apply Hne1. apply Hz. reflexivity.
    + repeat split; intros; try discriminate; intuition congruence.
Qed.

(** C7, as amended.  [ImportPublicCert] returns LE_OK exactly when the
    command line it hands to system(3) terminates normally with status
    zero.  Under sh, for a command line that fits the buffer, that is
    when the steps before the import exit with status zero and the
    import tool, run in the world they leave, exits with status zero.
    The extracted key identifier is never inspected: whatever the
    extraction printed, the call returns LE_FAULT when the import tool
    exits with a non-zero status and LE_OK when it exits with zero. *)
Theorem ImportPublicCert_ok_iff_command_exited_zero (certPath : string) (w : W) :
  Sh.system_runs run sys (import_script certPath) ->
  Sh.status_in_range run ->
  (String.length (Sh.render (import_script certPath)) <= 4095)%nat ->
  let before := Sh.exec run import_prelude w in
  let import_status := fst (run (evmctl_import certPath) (Sh.final before)) in
  (result (ImportPublicCert sys certPath w) = LE_OK
   <-> exited_zero (fst (sys (import_cmd certPath) w)) = true)
  /\ (result (ImportPublicCert sys certPath w) = LE_OK
      <-> Sh.status before = 0 /\ import_status = 0)
  /\ (Sh.status before = 0 -> import_status <> 0 ->
      result (ImportPublicCert sys certPath w) = LE_FAULT)
  /\ Sh.ran (Sh.exec run (import_script certPath) w)
     = (Sh.ran before
        ++ if Sh.status before =? 0 then [evmctl_import certPath] else [])%list
  /\ commands (events (ImportPublicCert sys certPath w)) = [import_cmd certPath].
Proof.
  intros Hruns Hrange Hfits before import_status.
  assert (Hcmd : import_cmd certPath = Sh.render (import_script certPath)).
  { rewrite import_cmd_take, <- render_import_script. apply take_all. exact Hfits. }
  rewrite ImportPublicCert_run. cbn [result events fst snd].
  assert (Hcmds : commands (import_events certPath
                              (fst (sys (import_cmd certPath) w)))
                  = [import_cmd certPath]).
  { unfold import_events. destruct (exited_zero _); reflexivity. }
  assert (Hiff : exited_zero (fst (sys (import_cmd certPath) w)) = true
                 <-> Sh.status before = 0 /\ import_status = 0).
  { rewrite Hcmd, (Hruns w). cbn [fst].
    unfold import_script. cbn [Sh.exec]. fold before.
    subst import_status.
    pose proof (exec_status_in_range W run Hrange import_prelude w) as Rb.
    fold before in Rb.
    destruct before as [[stb wb] ranb]. cbn [Sh.status Sh.final fst snd] in *.
    pose proof (Hrange (evmctl_import certPath) wb) as Ri.
    destruct (Z.eqb_spec stb 0) as [-> | Hneb].
    - destruct (run (evmctl_import certPath) wb) as [sti wi].
      cbn [Sh.status fst snd] in *.
      rewrite (exited_zero_exit_status sti Ri). tauto.
    - cbn [Sh.status fst snd].
      rewrite (exited_zero_exit_status stb Rb). tauto. }
  split; [| split; [| split; [| split]]].
  - destruct (exited_zero _); split; congruence.
  - rewrite <- Hiff. destruct (exited_zero _); split; congruence.
  - intros Hb Hi. destruct (exited_zero _); [| reflexivity].
    exfalso. apply Hi. apply Hiff. reflexivity.
  - unfold import_script. cbn [Sh.exec]. fold before.
    destruct before as [[stb wb] ranb]. cbn [Sh.status Sh.final Sh.ran fst snd].
    destruct (stb =? 0).
    + destruct (run (evmctl_import certPath) wb) as [sti wi]. reflexivity.
    + symmetry. apply app_nil_r.
  - exact Hcmds.
Qed.

End ShellProperties.

(** ** The properties on the test double *)

Lemma stub_status_in_range (cfg : Stub.config) : Sh.status_in_range (Stub.run cfg).
Proof.
  intros text m. unfold Stub.run.
  repeat match goal with
         | |- context [if ?b then _ else _] => destruct b
         end; cbn [fst]; lia.
Qed.

Lemma format_verify (filePath certPath : string) :
  format "%s ima_verify %s -k %s " [AStr EVMCTL_PATH; AStr filePath; AStr certPath]
  = EVMCTL_PATH ++ " ima_verify " ++ filePath ++ " -k " ++ certPath ++ " ".
Proof. reflexivity. Qed.

Lemma take_app_literal (n : nat) (a b : string) :
  take (String.length a + n) (a ++ b) = a ++ take n b.
Proof.
  induction a as [| c a IH]; cbn; [reflexivity | rewrite IH; reflexivity].
Qed.

Lemma prefix_app (a b : string) : prefix a (a ++ b) = true.
Proof.
  induction a as [| c a IH]; cbn.
  - destruct b; reflexivity.
  - destruct (ascii_dec c c); [exact IH | contradiction].
Qed.

Lemma verify_cmd_prefix (filePath certPath : string) :
  prefix (EVMCTL_PATH ++ " ima_verify ") (verify_cmd filePath certPath) = true.
Proof.
  rewrite verify_cmd_take, format_verify.
  change (EVMCTL_PATH ++ " ima_verify " ++ filePath ++ " -k " ++ certPath ++ " ")
    with ((EVMCTL_PATH ++ " ima_verify ") ++ filePath ++ " -k " ++ certPath ++ " ").
  change 4095%nat with (String.length (EVMCTL_PATH ++ " ima_verify ") + 4068)%nat.
  rewrite take_app_literal. apply prefix_app.
Qed.

Lemma stub_verifier_fixed (cfg : Stub.config) (certPath : string) :
  verifier_fixed (Stub.sys cfg) certPath.
Proof.
  intros filePath m1 m2. unfold Stub.sys.
  rewrite verify_cmd_prefix. reflexivity.
Qed.

Lemma stub_system_runs_enabled (cfg : Stub.config) :
  Sh.system_runs (Stub.run cfg) (Stub.sys cfg) enabled_script.
Proof. intros m. reflexivity. Qed.

Lemma stub_system_runs_import (cfg : Stub.config) :
  Stub.cert cfg = Stub.the_cert ->
  Sh.system_runs (Stub.run cfg) (Stub.sys cfg) (import_script Stub.the_cert).
Proof.
  intros Hcert m. unfold Stub.sys. rewrite Hcert.
  replace (prefix (EVMCTL_PATH ++ " ima_verify ")
             (Sh.render (import_script Stub.the_cert))) with false
    by (vm_compute; reflexivity).
  replace (Sh.render (import_script Stub.the_cert) =? enabled_cmd)%string with false
    by (vm_compute; reflexivity).
  replace (Sh.render (import_script Stub.the_cert) =? import_cmd Stub.the_cert)%string
    with true by (vm_compute; reflexivity).
  reflexivity.
Qed.

(** C2 on the double: the shell running the verification command of b.bin
    is killed by signal 9. *)
Lemma VerifyFile_ok_iff_exited_zero_witness :
  termination_wf (Signaled 9 false)
  /\ result (VerifyFile (Stub.sys (Stub.b_ends (Signaled 9 false)))
               "b.bin" Stub.the_cert Stub.boot) = LE_FAULT.
Proof.
  split; [simpl; lia |].
  destruct (VerifyFile_ok_iff_exited_zero _
              (Stub.sys (Stub.b_ends (Signaled 9 false)))
              "b.bin" Stub.the_cert Stub.boot (Signaled 9 false))
    as (_ & _ & Hfault); [simpl; lia | vm_compute; reflexivity |].
  apply Hfault. discriminate.
Defined.

(** C10 on the double: a path of 4200 bytes.  The command run has 4095
    bytes, and is the command of a path of 4400 bytes as well. *)
Lemma command_truncated_silently_witness :
  String.length (verify_cmd (Stub.replicate 4200 "a") Stub.the_cert) = 4095%nat
  /\ verify_cmd (Stub.replicate 4200 "a") Stub.the_cert
     <> format "%s ima_verify %s -k %s "
          [AStr EVMCTL_PATH; AStr (Stub.replicate 4200 "a"); AStr Stub.the_cert]
  /\ verify_cmd (Stub.replicate 4200 "a") Stub.the_cert
     = verify_cmd (Stub.replicate 4400 "a") Stub.the_cert
  /\ result (VerifyFile (Stub.sys Stub.good) (Stub.replicate 4200 "a")
               Stub.the_cert Stub.boot) = LE_OK.
Proof.
  destruct (command_truncated_silently _ (Stub.sys Stub.good)
              (Stub.replicate 4200 "a") Stub.the_cert Stub.boot)
    as [(_ & Hok & _ & Hcut & _) _].
  rewrite <- verify_cmd_take in Hok, Hcut.
  destruct Hcut as [Hlen Hne].
  { apply Nat.ltb_lt. vm_compute. reflexivity. }
  split; [exact Hlen |]. split; [exact Hne |].
  split; [vm_compute; reflexivity |].
  apply Hok. vm_compute. reflexivity.
Defined.

(** C3 on the double: after the rejected b.bin no command is run, though
    c.bin is still to come. *)
Lemma VerifyDir_stops_at_first_fault_witness :
  commands (skipn 11 (events (VerifyDir (Stub.sys (Stub.b_ends (Exited 1)))
                                (Stub.fts (Stub.b_ends (Exited 1)))
                                Stub.pub_cert_name
                                "/root" Stub.the_cert Stub.boot))) = []
  /\ result (VerifyDir (Stub.sys (Stub.b_ends (Exited 1)))
               (Stub.fts (Stub.b_ends (Exited 1))) Stub.pub_cert_name
               "/root" Stub.the_cert Stub.boot) = LE_FAULT.
Proof.
  destruct (VerifyDir_stops_at_first_fault _
              (Stub.sys (Stub.b_ends (Exited 1)))
              (Stub.fts (Stub.b_ends (Exited 1))) Stub.pub_cert_name
              "/root" Stub.the_cert Stub.boot
              (firstn 10 (events (VerifyDir (Stub.sys (Stub.b_ends (Exited 1)))
                                    (Stub.fts (Stub.b_ends (Exited 1)))
                                    Stub.pub_cert_name
                                    "/root" Stub.the_cert Stub.boot)))
              (verify_cmd "b.bin" Stub.the_cert)
              (wait_status (Exited 1))
              (skipn 11 (events (VerifyDir (Stub.sys (Stub.b_ends (Exited 1)))
                                   (Stub.fts (Stub.b_ends (Exited 1)))
                                   Stub.pub_cert_name
                                   "/root" Stub.the_cert Stub.boot))))
    as (Hcmds & _ & _ & Hres).
  - vm_compute. reflexivity.
  - vm_compute. reflexivity.
  - split; [exact Hcmds | exact Hres].
Defined.

(** C5 on the double: a.bin, b.bin and c.bin are verified, cert.pem is
    not. *)
Lemma VerifyDir_never_verifies_certificate_witness :
  commands (events (VerifyDir (Stub.sys Stub.good) (Stub.fts Stub.good)
                      Stub.pub_cert_name "/root" Stub.the_cert Stub.boot))
  = [ verify_cmd "a.bin" Stub.the_cert;
      verify_cmd "b.bin" Stub.the_cert;
      verify_cmd "c.bin" Stub.the_cert ].
Proof.
  destruct (VerifyDir_never_verifies_certificate _
              (Stub.sys Stub.good) (Stub.fts Stub.good) Stub.pub_cert_name
              "/root" Stub.the_cert Stub.boot Stub.root_tree eq_refl)
    as (visited & rest & _ & Hcmds & _ & Hall).
  rewrite Hcmds, Hall; vm_compute; reflexivity.
Defined.


(** C6 on the double: a kernel built with IMA and booted with enforcement,
    and one booted without. *)
Lemma ima_IsEnabled_iff_both_probes_witness :
  result (ima_IsEnabled (Stub.sys Stub.good) Stub.boot) = true
  /\ world (ima_IsEnabled (Stub.sys Stub.good) Stub.boot) = Stub.boot
  /\ result (ima_IsEnabled (Stub.sys Stub.not_enforced) Stub.boot) = false.
Proof.
  destruct (ima_IsEnabled_iff_both_probes _
              (Stub.sys Stub.good) (Stub.run Stub.good) Stub.boot
              (stub_system_runs_enabled Stub.good)
              (stub_status_in_range Stub.good)
              (fun m => eq_refl) (fun m => eq_refl))
    as (Htrue & _ & Hworld & _).
  destruct (ima_IsEnabled_iff_both_probes _
              (Stub.sys Stub.not_enforced) (Stub.run Stub.not_enforced) Stub.boot
              (stub_system_runs_enabled Stub.not_enforced)
              (stub_status_in_range Stub.not_enforced)
              (fun m => eq_refl) (fun m => eq_refl))
    as (_ & Hfalse & _).
  split; [apply Htrue; split; reflexivity |].
  split; [exact Hworld |].
  apply Hfalse. right. vm_compute. discriminate.
Defined.

(** C7 as stated fails: with no .ima keyring in /proc/keys the extraction
    prints nothing, the import tool is run without a key id, and when it
    exits with status zero the call returns LE_OK. *)
Lemma ImportPublicCert_ok_without_key_id :
  ~ (Stub.key_id Stub.no_key = EmptyString ->
     result (ImportPublicCert (Stub.sys Stub.no_key) Stub.the_cert Stub.boot)
     = LE_FAULT).
Proof.
  intros H. specialize (H eq_refl). vm_compute in H. discriminate H.
Qed.

(** C7 as amended, on the double: with the keyring listed the import
    succeeds; without it, it fails with an import tool that rejects an
    empty key id. *)
Lemma ImportPublicCert_ok_iff_command_exited_zero_witness :
  result (ImportPublicCert (Stub.sys Stub.good) Stub.the_cert Stub.boot) = LE_OK
  /\ result (ImportPublicCert (Stub.sys Stub.no_key_strict) Stub.the_cert Stub.boot)
     = LE_FAULT.
Proof.
  assert (Hfits : (String.length (Sh.render (import_script Stub.the_cert))
                   <= 4095)%nat).
  { apply Nat.leb_le. vm_compute. reflexivity. }
  destruct (ImportPublicCert_ok_iff_command_exited_zero _
              (Stub.sys Stub.good) (Stub.run Stub.good) Stub.the_cert Stub.boot
              (stub_system_runs_import Stub.good eq_refl)
              (stub_status_in_range Stub.good) Hfits)
    as (_ & Hok & _).
  destruct (ImportPublicCert_ok_iff_command_exited_zero _
              (Stub.sys Stub.no_key_strict) (Stub.run Stub.no_key_strict)
              Stub.the_cert Stub.boot
              (stub_system_runs_import Stub.no_key_strict eq_refl)
              (stub_status_in_range Stub.no_key_strict) Hfits)
    as (_ & _ & Hfault & _ & _).
  split.
  - apply Hok. split; vm_compute; reflexivity.
  - apply Hfault; vm_compute; [reflexivity | discriminate].
Defined.

(** ** Scenarios on the test double *)

(** /root/{a.bin, b.bin, cert.pem, c.bin} with a tool that accepts every
    file: one command per file other than cert.pem, and LE_OK. *)
Example scenario_all_verified :
  let r := VerifyDir (Stub.sys Stub.good) (Stub.fts Stub.good) Stub.pub_cert_name
             "/root" Stub.the_cert Stub.boot in
  result r = LE_OK
  /\ commands (events r)
     = [ "/usr/bin/evmctl ima_verify a.bin -k /etc/cert.pem ";
         "/usr/bin/evmctl ima_verify b.bin -k /etc/cert.pem ";
         "/usr/bin/evmctl ima_verify c.bin -k /etc/cert.pem " ]
  /\ last (events r) EvFtsClose = EvFtsClose.
Proof. vm_compute. repeat split. Qed.

(** The same tree with a tool that rejects b.bin: LE_FAULT, and c.bin is
    never looked at. *)
Example scenario_b_rejected :
  let cfg := Stub.b_ends (Exited 1) in
  let r := VerifyDir (Stub.sys cfg) (Stub.fts cfg) Stub.pub_cert_name
             "/root" Stub.the_cert Stub.boot in
  result r = LE_FAULT
  /\ commands (events r)
     = [ "/usr/bin/evmctl ima_verify a.bin -k /etc/cert.pem ";
         "/usr/bin/evmctl ima_verify b.bin -k /etc/cert.pem " ]
  /\ last (events r) EvFtsClose = EvFtsClose.
Proof. vm_compute. repeat split. Qed.

(** Importing on a freshly booted machine mounts the security file system
    and hands the decimal id of the .ima keyring to the tool. *)
Example scenario_import :
  let r := ImportPublicCert (Stub.sys Stub.good) Stub.the_cert Stub.boot in
  result r = LE_OK
  /\ Stub.secfs_mounted (world r) = true
  /\ Stub.imported (world r) = [("/etc/cert.pem", "271828")].
Proof. vm_compute. repeat split. Qed.

(** Without a .ima keyring in /proc/keys the import tool is run with an
    empty key id; here it accepts that. *)
Example scenario_import_without_key :
  let r := ImportPublicCert (Stub.sys Stub.no_key) Stub.the_cert Stub.boot in
  result r = LE_OK
  /\ Stub.imported (world r) = [("/etc/cert.pem", EmptyString)]
  /\ Sh.ran (Sh.exec (Stub.run Stub.no_key) (import_script Stub.the_cert) Stub.boot)
     = [ set_secfs; grep_mounts; mount_secfs; extract_ima_id;
         evmctl_import Stub.the_cert ].
Proof. vm_compute. repeat split. Qed.

(** The four combinations of the two probes. *)
Example scenario_probes :
  let enabled c a :=
    result (ima_IsEnabled
              (Stub.sys (Stub.mkConfig Stub.the_cert [] [] c a true None true))
              Stub.boot) in
  enabled true true = true
  /\ enabled true false = false
  /\ enabled false true = false
  /\ enabled false false = false.
Proof. vm_compute. repeat split. Qed.

(** * Further properties of ima.c *)

(** ** Command lines *)

Lemma length_append (a b : string) :
  String.length (a ++ b) = (String.length a + String.length b)%nat.
Proof. induction a as [| c a IH]; cbn; [reflexivity | rewrite IH; reflexivity]. Qed.

Lemma append_assoc (a b c : string) : (a ++ b) ++ c = a ++ b ++ c.
Proof. induction a as [| x a IH]; cbn; [reflexivity | rewrite IH; reflexivity]. Qed.

Lemma append_cancel_l (a x y : string) : a ++ x = a ++ y -> x = y.
Proof.
  induction a as [| c a IH]; cbn; intros H; [exact H |].
  injection H as H. apply IH. exact H.
Qed.

Lemma append_cancel_r (x y s : string) : x ++ s = y ++ s -> x = y.
Proof.
  revert y. induction x as [| c x IH]; intros [| d y] H; cbn in H.
  - reflexivity.
  - exfalso. apply (f_equal String.length) in H. cbn in H.
    rewrite length_append in H. lia.
  - exfalso. apply (f_equal String.length) in H. cbn in H.
    rewrite length_append in H. lia.
  - injection H as -> H. rewrite (IH y H). reflexivity.
Qed.

Lemma format_import (certPath : string) :
  format import_format [AStr EVMCTL_PATH; AStr certPath]
  = "SECFS=/sys/kernel/security && "
    ++ "grep -q  $SECFS /proc/mounts || mount -n -t securityfs securityfs $SECFS && "
    ++ extract_ima_id ++ " && " ++ EVMCTL_PATH ++ " import " ++ certPath ++ " $ima_id".
Proof. reflexivity. Qed.

Lemma length_format_verify (filePath certPath : string) :
  String.length (format "%s ima_verify %s -k %s "
                   [AStr EVMCTL_PATH; AStr filePath; AStr certPath])
  = (String.length filePath + String.length certPath + 32)%nat.
Proof.
  rewrite format_verify.
  change (EVMCTL_PATH ++ " ima_verify " ++ filePath ++ " -k " ++ certPath ++ " ")
    with ((EVMCTL_PATH ++ " ima_verify ") ++ filePath ++ " -k " ++ certPath ++ " ").
  rewrite !length_append.
  change (String.length EVMCTL_PATH) with 15%nat.
  change (String.length " ima_verify ") with 12%nat.
  change (String.length " -k ") with 4%nat.
  change (String.length " ") with 1%nat.
  lia.
Qed.

Lemma verify_cmd_full (filePath certPath : string) :
  (String.length filePath + String.length certPath + 32 <= 4095)%nat ->
  verify_cmd filePath certPath
  = EVMCTL_PATH ++ " ima_verify " ++ filePath ++ " -k " ++ certPath ++ " ".
Proof.
  intros Hfits. rewrite verify_cmd_take, <- format_verify.
  apply take_all. rewrite length_format_verify. exact Hfits.
Qed.
Lemma length_format_import (certPath : string) :
  String.length (format import_format [AStr EVMCTL_PATH; AStr certPath])
  = (String.length certPath + 201)%nat.
Proof.
  rewrite format_import, !length_append.
  unfold extract_ima_id, EVMCTL_PATH, dq. cbn. lia.
Qed.

Lemma import_cmd_full (certPath : string) :
  (String.length certPath + 201 <= 4095)%nat ->
  import_cmd certPath = Sh.render (import_script certPath).
Proof.
  intros Hfits. rewrite import_cmd_take, render_import_script.
  apply take_all. rewrite length_format_import. exact Hfits.
Qed.

(** X1. The command lines never overrun the buffer: both have at most 4095
    bytes.  A command line that fits is handed to system(3) as it was
    written: the tool path, the sub-command and the paths, separated by
    single spaces and not quoted. *)
Theorem command_fits_buffer (filePath certPath : string) :
  (String.length (verify_cmd filePath certPath) <= 4095)%nat
  /\ (String.length (import_cmd certPath) <= 4095)%nat
  /\ ((String.length filePath + String.length certPath + 32 <= 4095)%nat ->
      verify_cmd filePath certPath
      = "/usr/bin/evmctl ima_verify " ++ filePath ++ " -k " ++ certPath ++ " ")
  /\ ((String.length certPath + 201 <= 4095)%nat ->
      import_cmd certPath
      = set_secfs ++ " && " ++ grep_mounts ++ " || " ++ mount_secfs ++ " && "
        ++ extract_ima_id ++ " && "
        ++ "/usr/bin/evmctl import " ++ certPath ++ " $ima_id").
Proof.
  split; [| split; [| split]].
  - rewrite verify_cmd_take, length_take. apply Nat.le_min_l.
  - rewrite import_cmd_take, length_take. apply Nat.le_min_l.
  - intros Hfits. rewrite (verify_cmd_full _ _ Hfits). reflexivity.
  - intros Hfits. rewrite (import_cmd_full _ Hfits). reflexivity.
Qed.

(** X2. Among command lines that fit the buffer, the verification command
    tells the files apart: for one certificate, two file paths with the
    same command line are the same path; and for one file path, two
    certificates with the same command line are the same certificate. *)
Theorem verify_cmd_injective (file1 cert1 file2 cert2 : string) :
  (String.length file1 + String.length cert1 + 32 <= 4095)%nat ->
  (String.length file2 + String.length cert2 + 32 <= 4095)%nat ->
  verify_cmd file1 cert1 = verify_cmd file2 cert2 ->
  (cert1 = cert2 -> file1 = file2) /\ (file1 = file2 -> cert1 = cert2).
Proof.
  intros Hfits1 Hfits2 Hsame.
  rewrite (verify_cmd_full _ _ Hfits1), (verify_cmd_full _ _ Hfits2) in Hsame.
  apply append_cancel_l in Hsame. apply append_cancel_l in Hsame.
  split.
  - intros <-. apply (append_cancel_r file1 file2 (" -k " ++ cert1 ++ " ")).
    exact Hsame.
  - intros <-. apply append_cancel_l in Hsame. apply append_cancel_l in Hsame.
    apply (append_cancel_r cert1 cert2 " "). exact Hsame.
Qed.

(** X3. The paths are pasted into the command line without quoting, so the
    command line does not determine them: a file path that contains
    [ -k ] gives the command line of a shorter file path with a longer
    certificate path, and [VerifyFile] then returns the same result for
    both and leaves the same world. *)
Theorem verify_cmd_unquoted (W : Type) (sys : string -> W -> Z * W)
    (x y z : string) (w : W) :
  verify_cmd (x ++ " -k " ++ y) z = verify_cmd x (y ++ " -k " ++ z)
  /\ result (VerifyFile sys (x ++ " -k " ++ y) z w)
     = result (VerifyFile sys x (y ++ " -k " ++ z) w)
  /\ world (VerifyFile sys (x ++ " -k " ++ y) z w)
     = world (VerifyFile sys x (y ++ " -k " ++ z) w)
  /\ commands (events (VerifyFile sys (x ++ " -k " ++ y) z w))
     = commands (events (VerifyFile sys x (y ++ " -k " ++ z) w)).
Proof.
  assert (Hcmd : verify_cmd (x ++ " -k " ++ y) z = verify_cmd x (y ++ " -k " ++ z)).
  { rewrite !verify_cmd_take, !format_verify.
    f_equal. f_equal. f_equal.
    rewrite !append_assoc. reflexivity. }
  split; [exact Hcmd |].
  rewrite !VerifyFile_run. cbn [result world events fst snd].
  rewrite !commands_verify_events, Hcmd. repeat split.
Qed.

(** X1 on two short paths. *)
Lemma command_fits_buffer_witness :
  verify_cmd "a.bin" "/etc/cert.pem"
  = "/usr/bin/evmctl ima_verify a.bin -k /etc/cert.pem ".
Proof.
  destruct (command_fits_buffer "a.bin" "/etc/cert.pem") as (_ & _ & Hfull & _).
  apply Hfull. vm_compute. lia.
Defined.

(** X2 on a.bin and b.bin: their command lines differ. *)
Lemma verify_cmd_injective_witness :
  verify_cmd "a.bin" Stub.the_cert <> verify_cmd "b.bin" Stub.the_cert.
Proof.
  intros Hsame.
  destruct (verify_cmd_injective "a.bin" Stub.the_cert "b.bin" Stub.the_cert)
    as [Hfile _].
  - vm_compute. lia.
  - vm_compute. lia.
  - exact Hsame.
  - discriminate (Hfile eq_refl).
Defined.

(** ** Import and probe, by the way the command ends *)

Lemma WEXITSTATUS_wait_status (t : termination) :
  termination_wf t -> WEXITSTATUS (wait_status t) = logged_exit_code t.
Proof.
  intros Hwf. destruct t as [code | sig core |]; simpl in Hwf.
  - rewrite WEXITSTATUS_div, wait_status_exited, Z.div_mul, Z.mod_small by lia.
    reflexivity.
  - apply WEXITSTATUS_signaled. lia.
  - reflexivity.
Qed.

(** X4. [ImportPublicCert] runs one command and returns LE_OK exactly when
    it terminates normally with exit status zero; a non-zero exit, a
    signal and a failure to create the child give LE_FAULT.  It logs the
    command, then either the success with the certificate path, or an
    error with the certificate path and a number: the exit code, 0 for a
    signal, 255 for a child that could not be created. *)
Theorem ImportPublicCert_ok_iff_exited_zero
    (W : Type) (sys : string -> W -> Z * W)
    (certPath : string) (w : W) (t : termination) :
  termination_wf t ->
  fst (sys (import_cmd certPath) w) = wait_status t ->
  (result (ImportPublicCert sys certPath w) = LE_OK <-> t = Exited 0)
  /\ (t <> Exited 0 -> result (ImportPublicCert sys certPath w) = LE_FAULT)
  /\ commands (events (ImportPublicCert sys certPath w)) = [import_cmd certPath]
  /\ logs (events (ImportPublicCert sys certPath w))
     = [ (LE_LOG_DEBUG, "cmd: %s", [AStr (import_cmd certPath)]);
         match result (ImportPublicCert sys certPath w) with
         | LE_OK =>
             (LE_LOG_DEBUG, "Installed certificate: '%s' successfully",
              [AStr certPath])
         | LE_FAULT =>
             (LE_LOG_ERR, "Failed to import certificate '%s', exitCode: %d",
              [AStr certPath; AInt (logged_exit_code t)])
         end ]
  /\ world (ImportPublicCert sys certPath w) = snd (sys (import_cmd certPath) w).
Proof.
  intros Hwf Hst. rewrite ImportPublicCert_run. cbn [result world events fst snd].
  rewrite Hst. unfold import_events.
  rewrite (WEXITSTATUS_wait_status t Hwf).
  pose proof (exited_zero_wait_status t Hwf) as Hz.
  destruct (exited_zero (wait_status t)).
  - assert (t = Exited 0) as -> by (apply Hz; reflexivity).
    repeat split; intros; try reflexivity; congruence.
  - assert (t <> Exited 0) by (intros E; apply Hz in E; discriminate E).
    repeat split; intros; try reflexivity; try discriminate; congruence.
Qed.

(** X4 on the double: the import tool rejects the empty key id with exit
    status 1. *)
Lemma ImportPublicCert_ok_iff_exited_zero_witness :
  logs (events (ImportPublicCert (Stub.sys Stub.no_key_strict)
                  Stub.the_cert Stub.boot))
  = [ (LE_LOG_DEBUG, "cmd: %s", [AStr (import_cmd Stub.the_cert)]);
      (LE_LOG_ERR, "Failed to import certificate '%s', exitCode: %d",
       [AStr Stub.the_cert; AInt 1]) ].
Proof.
  destruct (ImportPublicCert_ok_iff_exited_zero _ (Stub.sys Stub.no_key_strict)
              Stub.the_cert Stub.boot (Exited 1))
    as (_ & Hfault & _ & Hlogs & _).
  - simpl. lia.
  - vm_compute. reflexivity.
  - rewrite Hlogs, Hfault by discriminate. reflexivity.
Defined.

(** X5. [ima_IsEnabled] runs its one fixed command and logs nothing.  It
    returns true exactly when the command terminates normally with exit
    status zero: a shell that exits with another status, is killed by a
    signal or cannot be started reads as IMA not being enforced. *)
Theorem ima_IsEnabled_true_iff_exited_zero
    (W : Type) (sys : string -> W -> Z * W) (w : W) (t : termination) :
  termination_wf t ->
  fst (sys enabled_cmd w) = wait_status t ->
  (result (ima_IsEnabled sys w) = true <-> t = Exited 0)
  /\ (t <> Exited 0 -> result (ima_IsEnabled sys w) = false)
  /\ events (ima_IsEnabled sys w) = [EvSystem enabled_cmd (wait_status t)]
  /\ world (ima_IsEnabled sys w) = snd (sys enabled_cmd w).
Proof.
  intros Hwf Hst. rewrite ima_IsEnabled_run. cbn [result world events fst snd].
  rewrite Hst.
  pose proof (exited_zero_wait_status t Hwf) as Hz.
  destruct (exited_zero (wait_status t)).
  - assert (t = Exited 0) as -> by (apply Hz; reflexivity).
    repeat split; intros; try reflexivity; congruence.
  - assert (t <> Exited 0) by (intros E; apply Hz in E; discriminate E).
    repeat split; intros; try reflexivity; try discriminate; congruence.
Qed.

(** X5 on the double: a kernel booted without enforcement; the second
    probe, and so the shell, exits with status 1. *)
Lemma ima_IsEnabled_true_iff_exited_zero_witness :
  result (ima_IsEnabled (Stub.sys Stub.not_enforced) Stub.boot) = false.
Proof.
  destruct (ima_IsEnabled_true_iff_exited_zero _ (Stub.sys Stub.not_enforced)
              Stub.boot (Exited 1))
    as (_ & Hfalse & _).
  - simpl. lia.
  - vm_compute. reflexivity.
  - apply Hfalse. discriminate.
Defined.

(** ** The steps of the import command line *)

(** X6. Under sh, the import command line mounts securityfs only when
    /proc/mounts does not list it: when grep finds it, mount is not run and
    the extraction comes next.  When the mount is needed and fails, nothing
    more is run: neither the extraction nor the import tool, and
    [ImportPublicCert] returns LE_FAULT. *)
Theorem import_mounts_if_absent
    (W : Type) (sys run : string -> W -> Z * W) (certPath : string) (w : W) :
  Sh.system_runs run sys (import_script certPath) ->
  Sh.status_in_range run ->
  (String.length certPath + 201 <= 4095)%nat ->
  fst (run set_secfs w) = 0 ->
  let w1 := snd (run set_secfs w) in
  let listed := fst (run grep_mounts w1) in
  let w2 := snd (run grep_mounts w1) in
  let r := Sh.exec run (import_script certPath) w in
  (listed = 0 ->
   Sh.ran r
   = set_secfs :: grep_mounts :: extract_ima_id
     :: if fst (run extract_ima_id w2) =? 0 then [evmctl_import certPath] else [])
  /\ (listed <> 0 -> fst (run mount_secfs w2) <> 0 ->
      Sh.ran r = [set_secfs; grep_mounts; mount_secfs]
      /\ Sh.status r = fst (run mount_secfs w2)
      /\ result (ImportPublicCert sys certPath w) = LE_FAULT)
  /\ (listed <> 0 -> fst (run mount_secfs w2) = 0 ->
      Sh.ran r
      = set_secfs :: grep_mounts :: mount_secfs :: extract_ima_id
        :: if fst (run extract_ima_id (snd (run mount_secfs w2))) =? 0
           then [evmctl_import certPath] else []).
Proof.
  intros Hruns Hrange Hfits Hset w1 listed w2 r.
  assert (Hres : result (ImportPublicCert sys certPath w)
                 = if exited_zero (wait_status (Exited (Sh.status r)))
                   then LE_OK else LE_FAULT).
  { rewrite ImportPublicCert_run. cbn [result fst].
    rewrite (import_cmd_full _ Hfits), (Hruns w). reflexivity. }
  subst r listed w2 w1. unfold import_script, import_prelude in *.
  cbn [Sh.exec] in *. revert Hres.
  destruct (run set_secfs w) as [s1 w1]. cbn [fst snd] in *. subst s1.
  cbn [Z.eqb].
  pose proof (Hrange grep_mounts w1) as Rg.
  destruct (run grep_mounts w1) as [s2 w2]. cbn [fst snd] in *.
  destruct (Z.eq_dec s2 0) as [-> | Hne2].
  - intros _. cbn [Z.eqb]. split; [| split]; try (intros H; contradiction).
    intros _. destruct (run extract_ima_id w2) as [s4 w4]. cbn [fst snd].
    destruct (s4 =? 0); [| reflexivity].
    destruct (run (evmctl_import certPath) w4) as [s5 w5]. reflexivity.
  - rewrite (proj2 (Z.eqb_neq s2 0) Hne2).
    pose proof (Hrange mount_secfs w2) as Rm.
    destruct (run mount_secfs w2) as [s3 w3]. cbn [fst snd] in *.
    destruct (Z.eq_dec s3 0) as [-> | Hne3].
    + intros _. cbn [Z.eqb]. split; [intros H; contradiction |].
      split; [intros _ H; contradiction |]. intros _ _.
      destruct (run extract_ima_id w3) as [s4 w4]. cbn [fst snd].
      destruct (s4 =? 0); [| reflexivity].
      destruct (run (evmctl_import certPath) w4) as [s5 w5]. reflexivity.
    + rewrite !(proj2 (Z.eqb_neq s3 0) Hne3).
      intros Hres. split; [intros H; contradiction |].
      split; [| intros _ H; contradiction]. intros _ _.
      cbn [Sh.ran Sh.status fst snd] in *.
      split; [reflexivity |]. split; [reflexivity |].
      rewrite Hres.
      pose proof (exited_zero_exit_status s3 Rm) as Hz.
      destruct (exited_zero (wait_status (Exited s3))); [| reflexivity].
      exfalso. apply Hne3. apply Hz. reflexivity.
Qed.

(** X6 on the double: securityfs is not mounted and mounting fails. *)
Lemma import_mounts_if_absent_witness :
  Sh.ran (Sh.exec (Stub.run stub_no_mount) (import_script Stub.the_cert) Stub.boot)
  = [set_secfs; grep_mounts; mount_secfs]
  /\ result (ImportPublicCert (Stub.sys stub_no_mount) Stub.the_cert Stub.boot)
     = LE_FAULT.
Proof.
  destruct (import_mounts_if_absent _ (Stub.sys stub_no_mount)
              (Stub.run stub_no_mount) Stub.the_cert Stub.boot)
    as (_ & Hfail & _).
  - apply (stub_system_runs_import stub_no_mount). reflexivity.
  - apply stub_status_in_range.
  - vm_compute. lia.
  - reflexivity.
  - destruct Hfail as (Hran & _ & Hres).
    + vm_compute. discriminate.
    + vm_compute. discriminate.
    + split; [exact Hran | exact Hres].
Defined.

(** ** The traversal as a whole *)

Lemma count_closes_app (a b : list Event) :
  count_closes (a ++ b) = (count_closes a + count_closes b)%nat.
Proof.
  induction a as [| e a IH]; [reflexivity |].
  destruct e; cbn; rewrite IH; reflexivity.
Qed.

Lemma count_closes_verify_events (filePath certPath : string) (status : Z) :
  count_closes (verify_events filePath certPath status) = 0%nat.
Proof. unfold verify_events. destruct (exited_zero status); reflexivity. Qed.

Lemma loop_closes (W : Type) (sys : string -> W -> Z * W)
    (PUB_CERT_NAME certPath : string) (ents : list FTSENT) (w : W) :
  exists t,
    events (VerifyDir_loop sys PUB_CERT_NAME certPath ents w)
    = (t ++ [EvFtsClose])%list
    /\ count_closes t = 0%nat.
Proof.
  revert w. induction ents as [| e rest IH]; intros w.
  - exists []. split; reflexivity.
  - rewrite loop_cons. cbv zeta.
    destruct (eligible PUB_CERT_NAME e).
    + destruct (exited_zero _).
      * destruct (IH (snd (sys (verify_cmd (fts_accpath e) certPath) w)))
          as (t & Ht & Hc).
        exists (visit_event e
                :: verify_events (fts_accpath e) certPath
                     (fst (sys (verify_cmd (fts_accpath e) certPath) w)) ++ t)%list.
        cbn [events snd]. rewrite Ht. split.
        -- cbn [app]. rewrite <- app_assoc. reflexivity.
        -- cbn [count_closes visit_event].
           rewrite count_closes_app, count_closes_verify_events, Hc. reflexivity.
      * exists (visit_event e
                :: verify_events (fts_accpath e) certPath
                     (fst (sys (verify_cmd (fts_accpath e) certPath) w))
                   ++ [EvLog LE_LOG_CRIT
                         "Failed to verify file '%s' with public certificate '%s'"
                         [AStr (fts_accpath e); AStr certPath]])%list.
        cbn [events snd]. split.
        -- unfold abort_events. cbn [app]. rewrite <- app_assoc. reflexivity.
        -- cbn [count_closes visit_event].
           rewrite count_closes_app, count_closes_verify_events. reflexivity.
    + destruct (IH w) as (t & Ht & Hc).
      exists (visit_event e :: t). cbn [events snd]. rewrite Ht.
      split; [reflexivity | exact Hc].
Qed.

(** X7. [VerifyDir] releases the traversal handle on every path: when
    fts_open succeeded, fts_close is called exactly once and is the last
    thing the call does, whether it returns LE_OK or LE_FAULT; when
    fts_open failed, fts_close is not called. *)
Theorem VerifyDir_closes_traversal
    (W : Type) (sys : string -> W -> Z * W)
    (fts : string -> W -> option (list FTSENT))
    (PUB_CERT_NAME dirPath certPath : string) (w : W) :
  match fts dirPath w with
  | Some _ =>
      exists t,
        events (VerifyDir sys fts PUB_CERT_NAME dirPath certPath w)
        = (EvFtsOpen dirPath true :: t ++ [EvFtsClose])%list
        /\ count_closes t = 0%nat
  | None =>
      count_closes (events (VerifyDir sys fts PUB_CERT_NAME dirPath certPath w))
      = 0%nat
  end.
Proof.
  rewrite VerifyDir_run. destruct (fts dirPath w) as [ents |].
  - destruct (loop_closes W sys PUB_CERT_NAME certPath ents w) as (t & Ht & Hc).
    exists t. cbn [events snd]. rewrite Ht. split; [reflexivity | exact Hc].
  - reflexivity.
Qed.

Lemma loop_refines_verify_each (W : Type) (sys : string -> W -> Z * W)
    (PUB_CERT_NAME certPath : string) (ents : list FTSENT) (w : W) :
  let files := map fts_accpath (filter (eligible PUB_CERT_NAME) ents) in
  result (VerifyDir_loop sys PUB_CERT_NAME certPath ents w)
  = result (verify_each sys certPath files w)
  /\ world (VerifyDir_loop sys PUB_CERT_NAME certPath ents w)
     = world (verify_each sys certPath files w)
  /\ commands (events (VerifyDir_loop sys PUB_CERT_NAME certPath ents w))
     = commands (events (verify_each sys certPath files w)).
Proof.
  cbv zeta. revert w. induction ents as [| e rest IH]; intros w.
  - repeat split.
  - rewrite loop_cons. cbv zeta. cbn [filter].
    destruct (eligible PUB_CERT_NAME e).
    + cbn [map verify_each]. unfold bind at 1 2 3.
      rewrite VerifyFile_run.
      destruct (exited_zero _).
      * specialize (IH (snd (sys (verify_cmd (fts_accpath e) certPath) w))).
        destruct IH as (Hr & Hw & Hc).
        destruct (verify_each sys certPath _ _) as [[r' w'] t'].
        cbn [result world events fst snd commands visit_event] in *.
        rewrite !commands_app, Hc. repeat split; assumption.
      * cbn [result world events fst snd commands visit_event ret].
        rewrite !commands_app. repeat split.
    + cbn [result world events fst snd commands visit_event]. apply IH.
Qed.

(** X8. [VerifyDir] is [VerifyFile] on the access path of each regular
    file of the traversal not named as the public certificate, in the
    order of the traversal and up to the first that fails: same result,
    same commands, same world left.  Symbolic links, directories and any
    other entry add nothing. *)
Theorem VerifyDir_is_VerifyFile_on_each
    (W : Type) (sys : string -> W -> Z * W)
    (fts : string -> W -> option (list FTSENT))
    (PUB_CERT_NAME dirPath certPath : string) (w : W) (ents : list FTSENT) :
  fts dirPath w = Some ents ->
  let files :=
    map fts_accpath
      (filter (fun e => match fts_info e with
                        | FTS_F => negb (0 =? strcmp (fts_name e) PUB_CERT_NAME)
                        | _ => false
                        end) ents) in
  result (VerifyDir sys fts PUB_CERT_NAME dirPath certPath w)
  = result (verify_each sys certPath files w)
  /\ world (VerifyDir sys fts PUB_CERT_NAME dirPath certPath w)
     = world (verify_each sys certPath files w)
  /\ commands (events (VerifyDir sys fts PUB_CERT_NAME dirPath certPath w))
     = commands (events (verify_each sys certPath files w)).
Proof.
  intros Hfts. rewrite VerifyDir_run, Hfts.
  cbn [result world events fst snd commands].
  apply (loop_refines_verify_each W sys PUB_CERT_NAME certPath ents w).
Qed.

(** X8 on the double: /root against its three files. *)
Lemma VerifyDir_is_VerifyFile_on_each_witness :
  result (VerifyDir (Stub.sys (Stub.b_ends (Exited 1)))
            (Stub.fts (Stub.b_ends (Exited 1))) Stub.pub_cert_name
            "/root" Stub.the_cert Stub.boot)
  = result (verify_each (Stub.sys (Stub.b_ends (Exited 1))) Stub.the_cert
              ["a.bin"; "b.bin"; "c.bin"] Stub.boot).
Proof.
  exact (proj1 (VerifyDir_is_VerifyFile_on_each _
                  (Stub.sys (Stub.b_ends (Exited 1)))
                  (Stub.fts (Stub.b_ends (Exited 1))) Stub.pub_cert_name
                  "/root" Stub.the_cert Stub.boot Stub.root_tree eq_refl)).
Defined.

(** X9. With a verification tool of fixed behaviour, what [VerifyDir]
    returns does not depend on the order in which fts yields the entries:
    two traversals that are permutations of each other give the same
    result. *)
Theorem VerifyDir_result_order_independent
    (W : Type) (sys : string -> W -> Z * W)
    (fts1 fts2 : string -> W -> option (list FTSENT))
    (PUB_CERT_NAME dirPath certPath : string) (w : W)
    (ents1 ents2 : list FTSENT) :
  verifier_fixed sys certPath ->
  fts1 dirPath w = Some ents1 ->
  fts2 dirPath w = Some ents2 ->
  Permutation ents1 ents2 ->
  result (VerifyDir sys fts1 PUB_CERT_NAME dirPath certPath w)
  = result (VerifyDir sys fts2 PUB_CERT_NAME dirPath certPath w).
Proof.
  intros Hfixed H1 H2 Hperm. rewrite !VerifyDir_run, H1, H2. cbn [result fst].
  pose proof (loop_ok_iff_fixed W sys PUB_CERT_NAME certPath Hfixed ents1 w w) as I1.
  pose proof (loop_ok_iff_fixed W sys PUB_CERT_NAME certPath Hfixed ents2 w w) as I2.
  destruct (result (VerifyDir_loop sys PUB_CERT_NAME certPath ents1 w));
    destruct (result (VerifyDir_loop sys PUB_CERT_NAME certPath ents2 w));
    try reflexivity.
  - symmetry. apply I2. intros e Hin. apply (proj1 I1 eq_refl).
    apply (Permutation_in e (Permutation_sym Hperm)). exact Hin.
  - apply I1. intros e Hin. apply (proj1 I2 eq_refl).
    apply (Permutation_in e Hperm). exact Hin.
Qed.

(** X9 on the double: /root traversed forwards and backwards, with b.bin
    rejected. *)
Lemma VerifyDir_result_order_independent_witness :
  result (VerifyDir (Stub.sys (Stub.b_ends (Exited 1)))
            (Stub.fts (Stub.b_ends (Exited 1))) Stub.pub_cert_name
            "/root" Stub.the_cert Stub.boot)
  = result (VerifyDir (Stub.sys (Stub.b_ends (Exited 1)))
              (fun _ _ => Some (rev Stub.root_tree)) Stub.pub_cert_name
              "/root" Stub.the_cert Stub.boot).
Proof.
  apply (VerifyDir_result_order_independent _
           (Stub.sys (Stub.b_ends (Exited 1)))
           (Stub.fts (Stub.b_ends (Exited 1)))
           (fun _ _ => Some (rev Stub.root_tree))
           Stub.pub_cert_name "/root" Stub.the_cert Stub.boot
           Stub.root_tree (rev Stub.root_tree)).
  - apply stub_verifier_fixed.
  - reflexivity.
  - reflexivity.
  - apply Permutation_rev.
Defined.

Lemma visits_app (a b : list Event) : visits (a ++ b) = (visits a ++ visits b)%list.
Proof.
  induction a as [| e a IH]; [reflexivity |].
  destruct e as [[] fmt args | | |]; cbn [app visits]; try exact IH.
  destruct (fmt =? _)%string; [cbn [app]; rewrite IH; reflexivity | exact IH].
Qed.

Lemma visits_verify_events (filePath certPath : string) (status : Z) :
  visits (verify_events filePath certPath status) = [].
Proof. unfold verify_events. destruct (exited_zero status); reflexivity. Qed.

Lemma visits_visit_event (e : FTSENT) (t : list Event) :
  visits (visit_event e :: t) = visit_args e :: visits t.
Proof. reflexivity. Qed.

Lemma loop_fault_names_file (W : Type) (sys : string -> W -> Z * W)
    (PUB_CERT_NAME certPath : string) (ents : list FTSENT) (w : W) :
  result (VerifyDir_loop sys PUB_CERT_NAME certPath ents w) = LE_FAULT ->
  exists pre e post status before,
    ents = (pre ++ e :: post)%list
    /\ eligible PUB_CERT_NAME e = true
    /\ exited_zero status = false
    /\ visits (events (VerifyDir_loop sys PUB_CERT_NAME certPath ents w))
       = map visit_args (pre ++ [e])
    /\ events (VerifyDir_loop sys PUB_CERT_NAME certPath ents w)
       = (before ++ verify_events (fts_accpath e) certPath status
            ++ abort_events e certPath)%list.
Proof.
  revert w. induction ents as [| a rest IH]; intros w; [discriminate |].
  rewrite loop_cons. cbv zeta.
  destruct (eligible PUB_CERT_NAME a) eqn:Ha.
  - destruct (exited_zero _) eqn:Hz; cbn [result events fst snd].
    + intros Hfault. apply IH in Hfault
        as (pre & e & post & status & before & Hents & He & Hst & Hvis & Hev).
      exists (a :: pre), e, post, status,
        (visit_event a
         :: verify_events (fts_accpath a) certPath
              (fst (sys (verify_cmd (fts_accpath a) certPath) w)) ++ before)%list.
      split; [rewrite Hents; reflexivity |].
      split; [exact He |]. split; [exact Hst |]. split.
      * rewrite visits_visit_event, visits_app, visits_verify_events, Hvis.
        reflexivity.
      * rewrite Hev. cbn [app]. rewrite <- app_assoc. reflexivity.
    + intros _.
      exists [], a, rest, (fst (sys (verify_cmd (fts_accpath a) certPath) w)),
        [visit_event a].
      split; [reflexivity |]. split; [exact Ha |]. split; [exact Hz |]. split.
      * rewrite visits_visit_event, visits_app, visits_verify_events.
        reflexivity.
      * reflexivity.
  - cbn [result events fst snd]. intros Hfault. apply IH in Hfault
      as (pre & e & post & status & before & Hents & He & Hst & Hvis & Hev).
    exists (a :: pre), e, post, status, (visit_event a :: before).
    split; [rewrite Hents; reflexivity |].
    split; [exact He |]. split; [exact Hst |]. split.
    + rewrite visits_visit_event, Hvis. reflexivity.
    + rewrite Hev. reflexivity.
Qed.

(** X10. When [VerifyDir] returns LE_FAULT on a tree it could open, the
    log names the file: the last entry logged as reached is a regular file
    not named as the public certificate, the entries after it were not
    reached, and the call ends with the command on its access path that
    failed, the error record with that path, the certificate and the exit
    code, the critical record with that path and the certificate, and the
    release of the handle. *)
Theorem VerifyDir_fault_names_file
    (W : Type) (sys : string -> W -> Z * W)
    (fts : string -> W -> option (list FTSENT))
    (PUB_CERT_NAME dirPath certPath : string) (w : W) (ents : list FTSENT) :
  fts dirPath w = Some ents ->
  result (VerifyDir sys fts PUB_CERT_NAME dirPath certPath w) = LE_FAULT ->
  exists pre e post status before,
    ents = (pre ++ e :: post)%list
    /\ fts_info e = FTS_F /\ fts_name e <> PUB_CERT_NAME
    /\ exited_zero status = false
    /\ visits (events (VerifyDir sys fts PUB_CERT_NAME dirPath certPath w))
       = map visit_args (pre ++ [e])
    /\ events (VerifyDir sys fts PUB_CERT_NAME dirPath certPath w)
       = (before
          ++ [ EvSystem (verify_cmd (fts_accpath e) certPath) status;
               EvLog LE_LOG_ERR
                 "Failed to verify file '%s' with certificate '%s', exitCode: %d"
                 [AStr (fts_accpath e); AStr certPath; AInt (WEXITSTATUS status)];
               EvLog LE_LOG_CRIT
                 "Failed to verify file '%s' with public certificate '%s'"
                 [AStr (fts_accpath e); AStr certPath];
               EvFtsClose ])%list.
Proof.
  intros Hfts. rewrite VerifyDir_run, Hfts. cbn [result events fst snd].
  intros Hfault.
  apply loop_fault_names_file in Hfault
    as (pre & e & post & status & before & Hents & He & Hst & Hvis & Hev).
  apply (proj1 (eligible_spec PUB_CERT_NAME e)) in He as [Hf Hname].
  exists pre, e, post, status,
    (EvFtsOpen dirPath true
     :: before
        ++ [EvLog LE_LOG_DEBUG "Verify file command: %s"
              [AStr (verify_cmd (fts_accpath e) certPath)]])%list.
  split; [exact Hents |]. split; [exact Hf |]. split; [exact Hname |].
  split; [exact Hst |]. split.
  - exact Hvis.
  - rewrite Hev. unfold verify_events, abort_events. rewrite Hst.
    cbn [app]. rewrite <- app_assoc. reflexivity.
Qed.

(** X10 on the double: b.bin is rejected; a.bin, the link and the locked
    directory were reached before it, cert.pem and c.bin are not. *)
Lemma VerifyDir_fault_names_file_witness :
  visits (events (VerifyDir (Stub.sys (Stub.b_ends (Exited 1)))
                    (Stub.fts (Stub.b_ends (Exited 1))) Stub.pub_cert_name
                    "/root" Stub.the_cert Stub.boot))
  = map visit_args (firstn 5 Stub.root_tree).
Proof.
  destruct (VerifyDir_fault_names_file _
              (Stub.sys (Stub.b_ends (Exited 1)))
              (Stub.fts (Stub.b_ends (Exited 1))) Stub.pub_cert_name
              "/root" Stub.the_cert Stub.boot Stub.root_tree)
    as (pre & e & post & status & before & _ & _ & _ & _ & _ & _).
  - reflexivity.
  - vm_compute. reflexivity.
  - vm_compute. reflexivity.
Defined.

Lemma loop_preserves_invariant (W : Type) (sys : string -> W -> Z * W)
    (PUB_CERT_NAME certPath : string) (P : W -> Prop) :
  (forall filePath w, P w -> P (snd (sys (verify_cmd filePath certPath) w))) ->
  forall (ents : list FTSENT) (w : W),
    P w -> P (world (VerifyDir_loop sys PUB_CERT_NAME certPath ents w)).
Proof.
  intros Hstep ents. induction ents as [| e rest IH]; intros w Hw; [exact Hw |].
  rewrite loop_cons. cbv zeta.
  destruct (eligible PUB_CERT_NAME e).
  - destruct (exited_zero _); cbn [world fst snd].
    + apply IH. apply Hstep. exact Hw.
    + apply Hstep. exact Hw.
  - cbn [world fst snd]. apply IH. exact Hw.
Qed.

(** X11. [VerifyDir] changes the world only through the verification
    commands it runs: a property of the world that every verification
    command with this certificate keeps is kept by the whole call, whatever
    the tree and whatever the result. *)
Theorem VerifyDir_preserves_invariant
    (W : Type) (sys : string -> W -> Z * W)
    (fts : string -> W -> option (list FTSENT))
    (PUB_CERT_NAME dirPath certPath : string) (P : W -> Prop) (w : W) :
  (forall filePath w', P w' -> P (snd (sys (verify_cmd filePath certPath) w'))) ->
  P w ->
  P (world (VerifyDir sys fts PUB_CERT_NAME dirPath certPath w)).
Proof.
  intros Hstep Hw. rewrite VerifyDir_run.
  destruct (fts dirPath w) as [ents |]; cbn [world fst snd]; [| exact Hw].
  apply (loop_preserves_invariant W sys PUB_CERT_NAME certPath P Hstep).
  exact Hw.
Qed.

Lemma stub_verify_keeps_machine (cfg : Stub.config) (filePath certPath : string)
    (m : Stub.machine) :
  snd (Stub.sys cfg (verify_cmd filePath certPath) m) = m.
Proof. unfold Stub.sys. rewrite verify_cmd_prefix. reflexivity. Qed.

(** X11 on the double: its verification tool only reads, so a whole
    traversal leaves the machine as it was booted. *)
Lemma VerifyDir_preserves_invariant_witness :
  world (VerifyDir (Stub.sys (Stub.b_ends (Exited 1)))
           (Stub.fts (Stub.b_ends (Exited 1))) Stub.pub_cert_name
           "/root" Stub.the_cert Stub.boot) = Stub.boot.
Proof.
  apply (VerifyDir_preserves_invariant _
           (Stub.sys (Stub.b_ends (Exited 1)))
           (Stub.fts (Stub.b_ends (Exited 1))) Stub.pub_cert_name
           "/root" Stub.the_cert (fun m => m = Stub.boot) Stub.boot).
  - intros filePath m ->. apply stub_verify_keeps_machine.
  - reflexivity.
Defined.

Lemma loop_fixed_world (W : Type) (sys : string -> W -> Z * W)
    (PUB_CERT_NAME certPath : string) :
  verifier_fixed sys certPath ->
  forall (ents : list FTSENT) (w1 w2 : W),
    result (VerifyDir_loop sys PUB_CERT_NAME certPath ents w1)
    = result (VerifyDir_loop sys PUB_CERT_NAME certPath ents w2)
    /\ commands (events (VerifyDir_loop sys PUB_CERT_NAME certPath ents w1))
       = commands (events (VerifyDir_loop sys PUB_CERT_NAME certPath ents w2)).
Proof.
  intros Hfixed ents. induction ents as [| e rest IH]; intros w1 w2.
  - split; reflexivity.
  - rewrite !loop_cons. cbv zeta. rewrite (Hfixed (fts_accpath e) w1 w2).
    destruct (eligible PUB_CERT_NAME e).
    + destruct (exited_zero _); cbn [result events fst snd commands visit_event];
        rewrite !commands_app, !commands_verify_events.
      * destruct (IH (snd (sys (verify_cmd (fts_accpath e) certPath) w1))
                    (snd (sys (verify_cmd (fts_accpath e) certPath) w2)))
          as [Hr Hc].
        rewrite Hc. split; [exact Hr | reflexivity].
      * split; reflexivity.
    + cbn [result events fst snd commands visit_event]. apply IH.
Qed.

(** X12. With a verification tool of fixed behaviour, [VerifyDir] depends
    on the world only through the traversal: from two worlds in which fts
    yields the same entries (or fails alike) it returns the same result and
    runs the same commands.  So repeating a call on an unchanged tree
    repeats its result. *)
Theorem VerifyDir_repeatable
    (W : Type) (sys : string -> W -> Z * W)
    (fts : string -> W -> option (list FTSENT))
    (PUB_CERT_NAME dirPath certPath : string) (w1 w2 : W) :
  verifier_fixed sys certPath ->
  fts dirPath w1 = fts dirPath w2 ->
  result (VerifyDir sys fts PUB_CERT_NAME dirPath certPath w1)
  = result (VerifyDir sys fts PUB_CERT_NAME dirPath certPath w2)
  /\ commands (events (VerifyDir sys fts PUB_CERT_NAME dirPath certPath w1))
     = commands (events (VerifyDir sys fts PUB_CERT_NAME dirPath certPath w2)).
Proof.
  intros Hfixed Hfts. rewrite !VerifyDir_run, Hfts.
  destruct (fts dirPath w2) as [ents |]; cbn [result events fst snd commands].
  - apply (loop_fixed_world W sys PUB_CERT_NAME certPath Hfixed ents w1 w2).
  - split; reflexivity.
Qed.

(** X12 on the double: verifying /root before and after the certificate
    was imported. *)
Lemma VerifyDir_repeatable_witness :
  result (VerifyDir (Stub.sys Stub.good) (Stub.fts Stub.good) Stub.pub_cert_name
            "/root" Stub.the_cert Stub.boot)
  = result (VerifyDir (Stub.sys Stub.good) (Stub.fts Stub.good) Stub.pub_cert_name
              "/root" Stub.the_cert
              (world (ImportPublicCert (Stub.sys Stub.good) Stub.the_cert
                        Stub.boot))).
Proof.
  apply (VerifyDir_repeatable _ (Stub.sys Stub.good) (Stub.fts Stub.good)
           Stub.pub_cert_name "/root" Stub.the_cert Stub.boot
           (world (ImportPublicCert (Stub.sys Stub.good) Stub.the_cert Stub.boot))).
  - apply stub_verifier_fixed.
  - reflexivity.
Defined.


(** * Trees, roots and what the log tells *)







(** C4, at the failing input.  /nowhere does not exist: fts_open still
    returns a handle, fts_read reports the root as one FTS_NS entry, which
    the switch has no case for, and [VerifyDir] returns LE_OK, without the
    "Could not access dir" record, though every command would have failed.
    The same holds of /sealed, a root that cannot be read.  Only the empty
    path makes fts_open return NULL and the call return LE_FAULT. *)
Theorem VerifyDir_missing_root_returns_ok :
  let run dirPath :=
    VerifyDir (sys_returning (wait_status (Exited 1))) (fts_glibc sealed_fs)
      "cert.pem" dirPath "/etc/cert.pem" tt in
  Stub.lookup "/nowhere" sealed_fs = None
  /\ result (run "/nowhere") = LE_OK
  /\ events (run "/nowhere")
     = [ EvFtsOpen "/nowhere" true;
         visit_event (mkFTSENT FTS_NS "/nowhere" "/nowhere" "/nowhere");
         EvFtsClose ]
  /\ result (run "/sealed") = LE_OK
  /\ events (run "/sealed")
     = [ EvFtsOpen "/sealed" true;
         visit_event (mkFTSENT FTS_D "/sealed" "/sealed" "/sealed");
         visit_event (mkFTSENT FTS_DNR "/sealed" "/sealed" "/sealed");
         EvFtsClose ]
  /\ result (run EmptyString) = LE_FAULT.
Proof. vm_compute. repeat split. Qed.

(** C8, at the failing input.  system(3) returns -1 when no child could be
    created.  That is not a normal exit, yet [VerifyFile] takes
    WEXITSTATUS of it and logs exitCode 255: the very record it logs for a
    command that exits with status 255. *)
Theorem VerifyFile_failed_spawn_logged_as_exit_255 :
  let no_child := VerifyFile (sys_returning (-1)) "b.bin" "/etc/cert.pem" tt in
  let exit_255 :=
    VerifyFile (sys_returning (wait_status (Exited 255)))
      "b.bin" "/etc/cert.pem" tt in
  WIFEXITED (-1) = false
  /\ WIFEXITED (wait_status (Exited 255)) = true
  /\ result no_child = LE_FAULT
  /\ result exit_255 = LE_FAULT
  /\ logs (events no_child)
     = [ (LE_LOG_DEBUG, "Verify file command: %s",
          [AStr "/usr/bin/evmctl ima_verify b.bin -k /etc/cert.pem "]);
         (LE_LOG_ERR,
          "Failed to verify file '%s' with certificate '%s', exitCode: %d",
          [AStr "b.bin"; AStr "/etc/cert.pem"; AInt 255]) ]
  /\ logs (events no_child) = logs (events exit_255).
Proof. vm_compute. repeat split. Qed.
